(** * The chatbot core and its adapters

    A shallow embedding of the platform-agnostic chatbot of the repository:
    the [Chatbot] class (per-user conversation histories, the
    receive / append / truncate / complete / append / send cycle), the two
    LLM adapters (ChatGPT and Gemini) and the messaging adapters (console,
    Telegram, Twilio WhatsApp and the WhatsApp placeholder).

    Conventions of the embedding:
    - a JavaScript string is the list of its UTF-16 code units;
    - a promise is represented by the way it settles ([Fulfilled] or
      [Rejected]); an [async] method is a function from the state before the
      call to the state after it and the settlement of its promise;
    - [handleIncomingMessage] is modelled as one uninterrupted turn, and [run]
      as turns processed one after the other: each call returns before the
      next one starts. The adapters do not serialise the turns (they start a
      handler for every inbound message without waiting for the previous one),
      so a statement over [run] is a statement about turns that do not
      overlap, unless the property is one that an interleaving of turns cannot
      break;
    - the external services (the OpenAI and Gemini clients, the Telegram bot,
      the Twilio client) are arbitrary functions from the request to the
      settlement of the call. *)

From Stdlib Require Import NArith ZArith Ascii String.
From Stdlib Require Import DecimalString DecimalPos DecimalZ.
From stdpp Require Import base option list gmap.

Local Open Scope N_scope.

(** ** JavaScript strings *)

Abbreviation jsstring := (list N).

(** The code units of an ASCII literal. *)
Definition js (s : string) : jsstring :=
  map N_of_ascii (list_ascii_of_string s).

(** A string is truthy exactly when it is not empty. *)
Definition truthy (s : jsstring) : bool :=
  match s with
  | [] => false
  | _ :: _ => true
  end.

(** [o || ""] for a value that is a string, [null] or [undefined]. *)
Definition orEmpty (o : option jsstring) : jsstring :=
  match o with
  | Some s => if truthy s then s else []
  | None => []
  end.

(** ECMAScript [WhiteSpace] and [LineTerminator] code points, the characters
    that [String.prototype.trim] strips; all of them are single code units. *)
Definition isWhiteSpace (c : N) : bool :=
  (c =? 9) || (c =? 10) || (c =? 11) || (c =? 12) || (c =? 13) ||
  (c =? 32) || (c =? 160) || (c =? 5760) ||
  ((8192 <=? c) && (c <=? 8202)) ||
  (c =? 8232) || (c =? 8233) || (c =? 8239) || (c =? 8287) ||
  (c =? 12288) || (c =? 65279).

Fixpoint trimStart (s : jsstring) : jsstring :=
  match s with
  | [] => []
  | c :: s' => if isWhiteSpace c then trimStart s' else s
  end.

Definition trimEnd (s : jsstring) : jsstring :=
  rev (trimStart (rev s)).

(** [String.prototype.trim] *)
Definition trim (s : jsstring) : jsstring :=
  trimEnd (trimStart s).

Local Close Scope N_scope.

(** ** Arrays *)

(** [Array.prototype.splice(start, deleteCount)] for non-negative integer
    arguments: [start] is clamped to the length, [deleteCount] to what is left
    after [start]; the elements in between are removed in place. *)
Definition splice {A : Type} (start deleteCount : nat) (a : list A) : list A :=
  let actualStart := Nat.min start (length a) in
  let actualDeleteCount := Nat.min deleteCount (length a - actualStart) in
  take actualStart a ++ drop (actualStart + actualDeleteCount) a.

(** ** Settled promises and thrown values *)

Inductive JsError : Type :=
  | Error (message : jsstring).

Inductive Settled (A : Type) : Type :=
  | Fulfilled (value : A)
  | Rejected (reason : JsError).

Arguments Fulfilled {A} value.
Arguments Rejected {A} reason.

Definition isRejected {A : Type} (p : Settled A) : bool :=
  match p with
  | Fulfilled _ => false
  | Rejected _ => true
  end.

(** ** Data model (ILLMAdapter.ts, IMessagingPlatformAdapter.ts) *)

Inductive Role : Type := user | assistant | system.

Global Instance Role_eq_dec : EqDecision Role.
Proof. solve_decision. Defined.

Record LLMMessage : Type := {
  role : Role;
  content : jsstring
}.

Global Instance LLMMessage_eq_dec : EqDecision LLMMessage.
Proof. solve_decision. Defined.

(** [temperature] is a floating-point number that is only passed through; it
    is kept as the decimal literal it was written as. *)
Record LLMOptions : Type := {
  temperature : option jsstring;
  maxTokens : option N;
  model : option jsstring
}.

Record MessagePayload : Type := {
  userId : jsstring;
  userName : option jsstring;
  text : jsstring;
  timestamp : Z
}.

Class ILLMAdapter (L : Type) : Type := {
  generateResponse :
    L -> list LLMMessage -> option LLMOptions -> L * Settled jsstring
}.

Class IMessagingPlatformAdapter (M : Type) : Type := {
  sendMessage : M -> jsstring -> jsstring -> M * Settled unit
}.

(** ** The chatbot core (Chatbot.ts) *)

(** A call made on one of the two adapters. *)
Inductive Call : Type :=
  | CallGenerateResponse (messages : list LLMMessage) (options : option LLMOptions)
  | CallSendMessage (to : jsstring) (body : jsstring).

Definition maxHistoryLength : nat := 10.

Definition noResponseText : jsstring :=
  js "I'm sorry, I couldn't generate a response right now.".

Definition apologyText : jsstring :=
  js "Sorry, I encountered an error. Please try again later.".

Section Chatbot.

Context {M L : Type}.
Context `{!IMessagingPlatformAdapter M} `{!ILLMAdapter L}.

(** The fields of the class. [calls] is a ghost field: the calls made on the
    adapters so far, oldest first. An array stored in [conversationHistories]
    is created by the handler for one key and is never stored under another
    key nor replaced, so the array object a turn works on is identified with
    the key it is stored under. *)
Record Chatbot : Type := {
  messagingAdapter : M;
  llmAdapter : L;
  llmOptions : option LLMOptions;
  conversationHistories : gmap jsstring (list LLMMessage);
  calls : list Call
}.

(** [new Chatbot(messagingAdapter, llmAdapter, llmOptions)] *)
Definition newChatbot (m : M) (l : L) (o : option LLMOptions) : Chatbot :=
  {| messagingAdapter := m; llmAdapter := l; llmOptions := o;
     conversationHistories := ∅; calls := [] |}.

(** An [async] method of the class. *)
Definition Async (A : Type) : Type := Chatbot -> Chatbot * Settled A.

Definition ret {A : Type} (a : A) : Async A :=
  fun this => (this, Fulfilled a).

Definition bind {A B : Type} (c : Async A) (k : A -> Async B) : Async B :=
  fun this =>
    match c this with
    | (this', Fulfilled a) => k a this'
    | (this', Rejected e) => (this', Rejected e)
    end.

(** [try { body } catch (error) { handler }] *)
Definition tryCatch {A : Type} (body : Async A) (handler : JsError -> Async A)
  : Async A :=
  fun this =>
    match body this with
    | (this', Fulfilled a) => (this', Fulfilled a)
    | (this', Rejected error) => handler error this'
    end.

Notation "x <- c ;; k" := (bind c (fun x => k))
  (at level 100, c at next level, right associativity).
Notation "c ;;; k" := (bind c (fun _ => k))
  (at level 100, right associativity).

Definition setHistories (h : gmap jsstring (list LLMMessage)) (this : Chatbot)
  : Chatbot :=
  {| messagingAdapter := messagingAdapter this; llmAdapter := llmAdapter this;
     llmOptions := llmOptions this; conversationHistories := h;
     calls := calls this |}.

(** [this.conversationHistories.get(key)] *)
Definition mapGet (key : jsstring) : Async (option (list LLMMessage)) :=
  fun this => (this, Fulfilled (conversationHistories this !! key)).

(** [this.conversationHistories.set(key, value)] *)
Definition mapSet (key : jsstring) (value : list LLMMessage) : Async unit :=
  fun this =>
    (setHistories (<[key := value]> (conversationHistories this)) this,
     Fulfilled tt).

(** The present contents of the array stored under [key]. *)
Definition contents (key : jsstring) : Async (list LLMMessage) :=
  fun this => (this, Fulfilled (default [] (conversationHistories this !! key))).

(** A method of the array stored under [key] that changes it in place. *)
Definition inPlace (key : jsstring) (f : list LLMMessage -> list LLMMessage)
  : Async unit :=
  fun this =>
    (setHistories (alter f key (conversationHistories this)) this, Fulfilled tt).

(** [await this.llmAdapter.generateResponse(messages, this.llmOptions)] *)
Definition awaitGenerateResponse (messages : list LLMMessage) : Async jsstring :=
  fun this =>
    let '(l, r) := generateResponse (llmAdapter this) messages (llmOptions this) in
    ({| messagingAdapter := messagingAdapter this; llmAdapter := l;
        llmOptions := llmOptions this;
        conversationHistories := conversationHistories this;
        calls := calls this ++ [CallGenerateResponse messages (llmOptions this)] |},
     r).

(** [await this.messagingAdapter.sendMessage(to, body)] *)
Definition awaitSendMessage (to body : jsstring) : Async unit :=
  fun this =>
    let '(m, r) := sendMessage (messagingAdapter this) to body in
    ({| messagingAdapter := m; llmAdapter := llmAdapter this;
        llmOptions := llmOptions this;
        conversationHistories := conversationHistories this;
        calls := calls this ++ [CallSendMessage to body] |},
     r).

(** [history[0]?.role === "system" ? 1 : 0] *)
Definition systemPromptOffset (history : list LLMMessage) : nat :=
  match history with
  | m :: _ => if decide (role m = system) then 1 else 0
  | [] => 0
  end.

(** [Chatbot.handleIncomingMessage]; [history] stands for the array stored
    under the user's key (see [Chatbot]). Console logging is left out. *)
Definition handleIncomingMessage (payload : MessagePayload) : Async unit :=
  let history := userId payload in
  found <- mapGet history ;;
  (if found is None then mapSet history [] else ret tt) ;;;
  inPlace history (fun a => a ++ [{| role := user; content := text payload |}]) ;;;
  a <- contents history ;;
  (if decide (maxHistoryLength < length a) then
     inPlace history (splice (systemPromptOffset a) (length a - maxHistoryLength))
   else ret tt) ;;;
  tryCatch
    (context <- contents history ;;
     llmResponseText <- awaitGenerateResponse context ;;
     if truthy llmResponseText then
       inPlace history
         (fun a => a ++ [{| role := assistant; content := llmResponseText |}]) ;;;
       same <- contents history ;;
       mapSet history same ;;;
       awaitSendMessage (userId payload) llmResponseText
     else
       awaitSendMessage (userId payload) noResponseText)
    (fun error => awaitSendMessage (userId payload) apologyText).

End Chatbot.

Arguments Chatbot M L : clear implicits.
Arguments Async M L A : clear implicits.

(** Turns processed one after the other: each call of the handler returns
    before the next one starts (turns that overlap, which the adapters do not
    prevent, are not runs). A rejection of the handler's promise is caught and
    logged by the adapter that invoked it, so the next turn starts from the
    state the previous one left. *)
Fixpoint run {M L : Type} `{!IMessagingPlatformAdapter M} `{!ILLMAdapter L}
    (payloads : list MessagePayload) (this : Chatbot M L) : Chatbot M L :=
  match payloads with
  | [] => this
  | payload :: rest => run rest (fst (handleIncomingMessage payload this))
  end.

(** The stored history of a user ([[]] when the user has none yet). *)
Definition historyOf {M L : Type} (this : Chatbot M L) (key : jsstring)
  : list LLMMessage :=
  default [] (conversationHistories this !! key).

(** The calls to [sendMessage] among [cs], as (recipient, text) pairs. *)
Definition sends (cs : list Call) : list (jsstring * jsstring) :=
  omap (fun c => match c with
                 | CallSendMessage to body => Some (to, body)
                 | CallGenerateResponse _ _ => None
                 end) cs.

(** The message lists handed to [generateResponse] among [cs]. *)
Definition contexts (cs : list Call) : list (list LLMMessage) :=
  omap (fun c => match c with
                 | CallGenerateResponse messages _ => Some messages
                 | CallSendMessage _ _ => None
                 end) cs.

(** The calls a computation makes when started in [this]. *)
Definition callsOf {M L A : Type} (c : Async M L A) (this : Chatbot M L)
  : list Call :=
  drop (length (calls this)) (calls (fst (c this))).

(** ** The LLM adapters *)

(** [options?.model || defaultModel] *)
Definition modelOr (options : option LLMOptions) (defaultModel : jsstring)
  : jsstring :=
  let m := orEmpty (options ≫= model) in
  if truthy m then m else defaultModel.

(** [options?.temperature] and [options?.maxTokens] *)
Definition temperatureOf (options : option LLMOptions) : option jsstring :=
  options ≫= temperature.

Definition maxTokensOf (options : option LLMOptions) : option N :=
  options ≫= maxTokens.

Module ChatGPT.

(** The part of the OpenAI client the adapter uses. *)
Record ChatCompletionMessage : Type := {
  content : option jsstring
}.

Record Choice : Type := {
  message : option ChatCompletionMessage
}.

Record ChatCompletion : Type := {
  choices : list Choice
}.

Record CreateParams : Type := {
  model : jsstring;
  messages : list LLMMessage;
  temperature : option jsstring;
  max_tokens : option N
}.

Record OpenAI : Type := {
  create : CreateParams -> Settled ChatCompletion
}.

Record ChatGPTAdapter : Type := {
  openai : OpenAI;
  defaultModel : jsstring
}.

(** [completion.choices[0]?.message?.content] *)
Definition firstContent (completion : ChatCompletion) : option jsstring :=
  c ← head (choices completion); m ← message c; content m.

Definition generateResponse (this : ChatGPTAdapter)
    (msgs : list LLMMessage) (options : option LLMOptions)
  : ChatGPTAdapter * Settled jsstring :=
  match
    create (openai this)
      {| model := modelOr options (defaultModel this);
         messages := msgs;
         temperature := temperatureOf options;
         max_tokens := maxTokensOf options |}
  with
  | Fulfilled completion => (this, Fulfilled (orEmpty (firstContent completion)))
  | Rejected error =>
      (this, Rejected (Error (js "Failed to get response from ChatGPT")))
  end.

End ChatGPT.

Global Instance ChatGPTAdapter_ILLMAdapter : ILLMAdapter ChatGPT.ChatGPTAdapter :=
  {| generateResponse := ChatGPT.generateResponse |}.

Module Gemini.

(** The part of the Google client the adapter uses. *)
Record Part : Type := {
  text : option jsstring
}.

Record Content : Type := {
  crole : Role;
  parts : option (list Part)
}.

(** [{ role: msg.role, parts: [{ text: msg.content }] }] *)
Definition toContent (msg : LLMMessage) : Content :=
  {| crole := role msg; parts := Some [{| text := Some (content msg) |}] |}.

Record Candidate : Type := {
  content : option Content
}.

Record GenerateContentResponse : Type := {
  candidates : option (list Candidate)
}.

Record GenerateContentResult : Type := {
  response : GenerateContentResponse
}.

Record GenerateContentRequest : Type := {
  contents : list Content;
  temperature : option jsstring;
  maxOutputTokens : option N
}.

(** [getGenerativeModel({ model })] followed by [generateContent(request)]. *)
Record GoogleGenerativeAI : Type := {
  generateContent : jsstring -> GenerateContentRequest -> Settled GenerateContentResult
}.

Record GeminiAdapter : Type := {
  gemini : GoogleGenerativeAI;
  defaultModel : jsstring
}.

(** [result.response.candidates?.[0]?.content?.parts?.[0]?.text] *)
Definition firstText (result : GenerateContentResult) : option jsstring :=
  cs ← candidates (response result); c ← head cs; k ← content c;
  ps ← parts k; p ← head ps; text p.

Definition generateResponse (this : GeminiAdapter)
    (msgs : list LLMMessage) (options : option LLMOptions)
  : GeminiAdapter * Settled jsstring :=
  let model := modelOr options (defaultModel this) in
  let chatHistory := map toContent msgs in
  match
    generateContent (gemini this) model
      {| contents := chatHistory;
         temperature := temperatureOf options;
         maxOutputTokens := maxTokensOf options |}
  with
  | Fulfilled result => (this, Fulfilled (trim (orEmpty (firstText result))))
  | Rejected error =>
      (this, Rejected (Error (js "Failed to get response from Gemini")))
  end.

End Gemini.

Global Instance GeminiAdapter_ILLMAdapter : ILLMAdapter Gemini.GeminiAdapter :=
  {| generateResponse := Gemini.generateResponse |}.

(** ** The messaging adapters *)

(** What an adapter writes to the terminal. *)
Inductive Output : Type :=
  | ConsoleLog (line : jsstring)
  | ConsoleWarn (line : jsstring)
  | Prompt (prompt : jsstring).

Module Console.

(** [readline.createInterface({ ..., prompt })] *)
Record Interface : Type := {
  prompt : jsstring
}.

(** [terminal] is what has been written to the terminal so far. *)
Record ConsoleAdapter : Type := {
  rl : option Interface;
  terminal : list Output
}.

Definition CONSOLE_USER_ID : jsstring := js "console_user".

Definition write (out : list Output) (this : ConsoleAdapter) : ConsoleAdapter :=
  {| rl := rl this; terminal := terminal this ++ out |}.

(** [this.rl?.prompt()] *)
Definition rlPrompt (this : ConsoleAdapter) : ConsoleAdapter :=
  match rl this with
  | Some i => write [Prompt (prompt i)] this
  | None => this
  end.

Definition sendMessage (this : ConsoleAdapter) (userId text : jsstring)
  : ConsoleAdapter * Settled unit :=
  let this1 :=
    if decide (userId = CONSOLE_USER_ID) then
      write [ConsoleLog (js "Bot: " ++ text)] this
    else
      write [ConsoleWarn
               (js "ConsoleAdapter: Attempted to send message to unknown user "
                ++ userId)] this in
  (rlPrompt this1, Fulfilled tt).

End Console.

Global Instance ConsoleAdapter_IMessagingPlatformAdapter
  : IMessagingPlatformAdapter Console.ConsoleAdapter :=
  {| sendMessage := Console.sendMessage |}.

Module Telegram.

(** [bot.sendMessage(chatId, text)] of node-telegram-bot-api. *)
Record TelegramBot : Type := {
  botSendMessage : jsstring -> jsstring -> Settled unit
}.

Record TelegramAdapter : Type := {
  bot : TelegramBot
}.

Definition sendMessage (this : TelegramAdapter) (userId text : jsstring)
  : TelegramAdapter * Settled unit :=
  match botSendMessage (bot this) userId text with
  | Fulfilled _ => (this, Fulfilled tt)
  | Rejected error => (this, Rejected error)
  end.

End Telegram.

Global Instance TelegramAdapter_IMessagingPlatformAdapter
  : IMessagingPlatformAdapter Telegram.TelegramAdapter :=
  {| sendMessage := Telegram.sendMessage |}.

Module TwilioWhatsApp.

Record MessageCreateParams : Type := {
  body : jsstring;
  from : jsstring;
  to : jsstring
}.

(** [client.messages.create(params)] of the Twilio client. *)
Record Twilio : Type := {
  messagesCreate : MessageCreateParams -> Settled unit
}.

Record TwilioWhatsAppAdapterConfig : Type := {
  accountSid : jsstring;
  authToken : jsstring;
  twilioPhoneNumber : jsstring
}.

Record TwilioWhatsAppAdapter : Type := {
  client : Twilio;
  config : TwilioWhatsAppAdapterConfig
}.

Definition sendMessage (this : TwilioWhatsAppAdapter) (userId text : jsstring)
  : TwilioWhatsAppAdapter * Settled unit :=
  match
    messagesCreate (client this)
      {| body := text; from := twilioPhoneNumber (config this); to := userId |}
  with
  | Fulfilled _ => (this, Fulfilled tt)
  | Rejected error => (this, Rejected error)
  end.

End TwilioWhatsApp.

Global Instance TwilioWhatsAppAdapter_IMessagingPlatformAdapter
  : IMessagingPlatformAdapter TwilioWhatsApp.TwilioWhatsAppAdapter :=
  {| sendMessage := TwilioWhatsApp.sendMessage |}.

Module WhatsApp.

(** The placeholder adapter: it only logs. *)
Record WhatsAppAdapter : Type := {
  terminal : list Output
}.

Definition sendMessage (this : WhatsAppAdapter) (userId text : jsstring)
  : WhatsAppAdapter * Settled unit :=
  ({| terminal :=
        terminal this ++
        [ConsoleLog (js "WhatsAppAdapter: Sending " ++ [34%N] ++ text ++ [34%N]
                     ++ js " to " ++ userId ++ js " (Placeholder).")] |},
   Fulfilled tt).

End WhatsApp.

Global Instance WhatsAppAdapter_IMessagingPlatformAdapter
  : IMessagingPlatformAdapter WhatsApp.WhatsAppAdapter :=
  {| sendMessage := WhatsApp.sendMessage |}.

(** ** The inbound side: events, callbacks and the composition root *)

(** The callback an adapter is connected with, over the state [W] it acts on
    (for a started chatbot: [handleIncomingMessage] bound to the chatbot). *)
Definition Callback (W : Type) : Type := MessagePayload -> W -> W * Settled unit.

Definition mkPayload (userId : jsstring) (userName : option jsstring)
    (text : jsstring) (timestamp : Z) : MessagePayload :=
  {| userId := userId; userName := userName; text := text;
     timestamp := timestamp |}.

(** [a || b] for a value [a] that is a string, [null] or [undefined]. *)
Definition orElse (a : option jsstring) (b : jsstring) : jsstring :=
  match a with
  | Some s => if truthy s then s else b
  | None => b
  end.

(** [Number.prototype.toString] of an integer (below 10^21 in absolute value,
    as every Telegram chat identifier is): its decimal digits, with a minus sign
    when it is negative. *)
Definition toString (z : Z) : jsstring :=
  js (NilZero.string_of_int (Z.to_int z)).

Module TelegramEvents.

(** The part of [TelegramBot.Message] the adapter reads. *)
Record User : Type := {
  is_bot : bool;
  first_name : jsstring;
  last_name : option jsstring;
  username : option jsstring
}.

Record Chat : Type := {
  id : Z
}.

Record Message : Type := {
  chat : Chat;
  from : option User;
  date : Z;
  text : option jsstring
}.

(** [false], [true] or an options object. *)
Inductive Setting : Type := Off | On | Options.

Record ConstructorOptions : Type := {
  polling : option Setting;
  webHook : option Setting
}.

Definition isSet (s : option Setting) : bool :=
  match s with
  | Some On | Some Options => true
  | Some Off | None => false
  end.

(** The constructor of [TelegramAdapter], up to [new TelegramBot]: it throws,
    or hands the token and the options it has settled on to the bot. *)
Definition constructorArguments (token : jsstring)
    (options : option ConstructorOptions)
  : JsError + (jsstring * ConstructorOptions) :=
  if negb (truthy token) then
    inl (Error (js "TelegramAdapter: Bot token is required. Please provide a valid token."))
  else
    let botOptions :=
      match options with
      | Some o => o
      | None => {| polling := Some On; webHook := None |}
      end in
    let botOptions :=
      if bool_decide (polling botOptions = None) && negb (isSet (webHook botOptions))
      then {| polling := Some On; webHook := webHook botOptions |}
      else botOptions in
    inr (token, botOptions).

(** The [userName] of the payload. *)
Definition displayName (msg : Message) : jsstring :=
  orElse (from msg ≫= username)
    (orElse
       (Some (trim (orElse (first_name <$> from msg) []
                    ++ js " " ++ orElse (from msg ≫= last_name) [])))
       (js "Telegram User")).

Definition payloadOf (msg : Message) : MessagePayload :=
  mkPayload (toString (id (chat msg))) (Some (displayName msg))
    (orElse (text msg) []) (date msg * 1000).

(** [TelegramAdapter.handleTelegramMessage], with the value of the field
    [onMessageCallback] as an argument. Console logging is left out. *)
Definition handleTelegramMessage {W : Type}
    (onMessageCallback : option (Callback W)) (msg : Message)
  : W -> W * Settled unit :=
  fun w =>
    if negb (truthy (orElse (text msg) []))
       || default false (is_bot <$> from msg)
    then (w, Fulfilled tt)
    else
      match onMessageCallback with
      | None => (w, Fulfilled tt)
      | Some callback =>
          match callback (payloadOf msg) w with
          | (w', Fulfilled _) => (w', Fulfilled tt)
          | (w', Rejected error) => (w', Fulfilled tt)
          end
      end.

End TelegramEvents.

Module ConsoleEvents.

Definition payloadOf (now : Z) (line : jsstring) : MessagePayload :=
  mkPayload Console.CONSOLE_USER_ID (Some (js "Console User")) (trim line) now.

(** The listener [ConsoleAdapter.connect] registers for the lines typed, in a chatbot whose
    messaging adapter is the console adapter; [onMessage] is the value of the
    field of that name and [now] the time of the event. Error logging is left
    out. *)
Definition lineListener {L : Type}
    (onMessage : option (Callback (Chatbot Console.ConsoleAdapter L)))
    (now : Z) (line : jsstring)
  : Chatbot Console.ConsoleAdapter L
    -> Chatbot Console.ConsoleAdapter L * Settled unit :=
  fun w =>
    let w1 :=
      match onMessage with
      | Some callback => fst (callback (payloadOf now line) w)
      | None => w
      end in
    ({| messagingAdapter := Console.rlPrompt (messagingAdapter w1);
        llmAdapter := llmAdapter w1;
        llmOptions := llmOptions w1;
        conversationHistories := conversationHistories w1;
        calls := calls w1 |},
     Fulfilled tt).

End ConsoleEvents.


Module Main.

(** The adapter [main] falls back to when no API key is set. *)
Inductive DummyAdapter : Type := Dummy.

(** [Array.prototype.findLast] *)
Definition findLast {A : Type} (p : A -> bool) (a : list A) : option A :=
  find p (rev a).

Definition dummyReply (quoted : jsstring) : jsstring :=
  js "Dummy response to: " ++ [34%N] ++ quoted ++ [34%N]
  ++ js ". Configure an LLM API key for real responses.".

Definition generateResponse (this : DummyAdapter)
    (messages : list LLMMessage) (options : option LLMOptions)
  : DummyAdapter * Settled jsstring :=
  let lastUserMessage := findLast (fun m => bool_decide (role m = user)) messages in
  (this,
   Fulfilled
     (dummyReply (match lastUserMessage with
                  | Some m => content m
                  | None => js "undefined"
                  end))).

End Main.

Global Instance DummyAdapter_ILLMAdapter : ILLMAdapter Main.DummyAdapter :=
  {| generateResponse := Main.generateResponse |}.

(** ** Derived views used by the statements *)

(** The contents of an array after the handler has enforced the cap on it
    (the block guarded by [history.length > maxHistoryLength]). *)
Definition capped (a : list LLMMessage) : list LLMMessage :=
  if decide (maxHistoryLength < length a) then
    splice (systemPromptOffset a) (length a - maxHistoryLength) a
  else a.

Definition userEntry (payload : MessagePayload) : LLMMessage :=
  {| role := user; content := text payload |}.

Definition assistantEntry (t : jsstring) : LLMMessage :=
  {| role := assistant; content := t |}.

(** The text of the first [sendMessage] of a turn, from the settlement of
    [generateResponse]. *)
Definition replyOf (r : Settled jsstring) : jsstring :=
  match r with
  | Fulfilled t => if truthy t then t else noResponseText
  | Rejected _ => apologyText
  end.

Definition isSystem (m : LLMMessage) : bool :=
  bool_decide (role m = system).

(** No entry has the system role. *)
Definition noSystem (h : list LLMMessage) : Prop :=
  Forall (fun m => role m <> system) h.

(** No two consecutive entries of [rs] are both [r]. *)
Fixpoint noRepeat (r : Role) (rs : list Role) : bool :=
  match rs with
  | [] => true
  | x :: rest =>
      match rest with
      | [] => true
      | y :: _ => negb (bool_decide (x = r) && bool_decide (y = r)) && noRepeat r rest
      end
  end.

(** What every stored history satisfies. *)
Definition tidy (h : list LLMMessage) : Prop :=
  noSystem h /\ noRepeat assistant (map role h) = true.

(** What every stored history satisfies as long as every turn is answered. *)
Definition paired (h : list LLMMessage) : Prop :=
  tidy h /\ noRepeat user (map role h) = true
  /\ last (map role h) <> Some user.

(** A system-role entry can only stand first. *)
Definition systemOnlyFirst (h : list LLMMessage) : bool :=
  forallb (fun m => negb (isSystem m)) (tail h).

(** At most one system entry, first, then user and assistant entries that
    alternate. *)
Definition alternates (h : list LLMMessage) : bool :=
  systemOnlyFirst h
  && noRepeat user (map role h) && noRepeat assistant (map role h).

(** The text the LLM adapter answers a turn with, when it answers with a
    non-empty text. *)
Definition answerOf {M L : Type} `{!ILLMAdapter L}
    (payload : MessagePayload) (this : Chatbot M L) : option jsstring :=
  match
    (generateResponse (llmAdapter this)
       (capped (historyOf this (userId payload) ++ [userEntry payload]))
       (llmOptions this)).2
  with
  | Fulfilled t => if truthy t then Some t else None
  | Rejected _ => None
  end.

(** Every turn of the run is answered with a non-empty text. *)
Fixpoint allAnswered {M L : Type} `{!IMessagingPlatformAdapter M} `{!ILLMAdapter L}
    (payloads : list MessagePayload) (this : Chatbot M L) : bool :=
  match payloads with
  | [] => true
  | payload :: rest =>
      bool_decide (is_Some (answerOf payload this))
      && allAnswered rest (fst (handleIncomingMessage payload this))
  end.

(** The entries appended to the history of [key] in the course of a run, in
    the order in which they arrive: for every turn of that user the user entry
    and, when the turn is answered with a non-empty text, the assistant entry. *)
Fixpoint arrivals {M L : Type} `{!IMessagingPlatformAdapter M} `{!ILLMAdapter L}
    (payloads : list MessagePayload) (this : Chatbot M L) (key : jsstring)
  : list LLMMessage :=
  match payloads with
  | [] => []
  | payload :: rest =>
      (if decide (key = userId payload) then
         userEntry payload
         :: (if answerOf payload this is Some t then [assistantEntry t] else [])
       else [])
      ++ arrivals rest (fst (handleIncomingMessage payload this)) key
  end.

(** ** Concrete adapters and payloads for the examples *)

Module Fixtures.

Definition payloadOf (uid body : string) : MessagePayload :=
  {| userId := js uid; userName := None; text := js body; timestamp := 0 |}.

Definition hello : MessagePayload := payloadOf "console_user" "hello".

(** A console adapter that is not connected yet. *)
Definition console : Console.ConsoleAdapter :=
  {| Console.rl := None; Console.terminal := [] |}.

(** A Telegram adapter whose bot rejects every send. *)
Definition blockedTelegram : Telegram.TelegramAdapter :=
  {| Telegram.bot :=
       {| Telegram.botSendMessage :=
            fun _ _ => Rejected (Error (js "Forbidden: bot was blocked by the user")) |} |}.

Definition completion (body : jsstring) : ChatGPT.ChatCompletion :=
  {| ChatGPT.choices :=
       [{| ChatGPT.message := Some {| ChatGPT.content := Some body |} |}] |}.

Definition chatGPT (provider : ChatGPT.CreateParams -> Settled ChatGPT.ChatCompletion)
  : ChatGPT.ChatGPTAdapter :=
  {| ChatGPT.openai := {| ChatGPT.create := provider |};
     ChatGPT.defaultModel := js "gpt-4.1-nano-2025-04-14" |}.

(** ChatGPT adapters whose provider always completes with the same text,
    with no choice at all, or fails. *)
Definition saying (body : string) : ChatGPT.ChatGPTAdapter :=
  chatGPT (fun _ => Fulfilled (completion (js body))).

Definition silent : ChatGPT.ChatGPTAdapter :=
  chatGPT (fun _ => Fulfilled {| ChatGPT.choices := [] |}).

Definition unreachable : ChatGPT.ChatGPTAdapter :=
  chatGPT (fun _ => Rejected (Error (js "connect ETIMEDOUT"))).

(** A Gemini adapter whose provider always completes with the same text. *)
Definition geminiSaying (body : string) : Gemini.GeminiAdapter :=
  {| Gemini.gemini :=
       {| Gemini.generateContent := fun _ _ =>
            Fulfilled
              {| Gemini.response :=
                   {| Gemini.candidates :=
                        Some [{| Gemini.content :=
                                   Some {| Gemini.crole := assistant;
                                           Gemini.parts :=
                                             Some [{| Gemini.text :=
                                                        Some (js body) |}] |} |}]
                   |} |} |};
     Gemini.defaultModel := js "gemini-2.0-flash-lite" |}.

(** A text message sent by a person in a Telegram chat. *)
Definition telegramText (chatId : Z) (body : string) : TelegramEvents.Message :=
  {| TelegramEvents.chat := {| TelegramEvents.id := chatId |};
     TelegramEvents.from :=
       Some {| TelegramEvents.is_bot := false;
               TelegramEvents.first_name := js "Ada";
               TelegramEvents.last_name := None;
               TelegramEvents.username := None |};
     TelegramEvents.date := 1700000000;
     TelegramEvents.text := Some (js body) |}.

(** A Telegram adapter whose bot accepts every send. *)
Definition telegram : Telegram.TelegramAdapter :=
  {| Telegram.bot := {| Telegram.botSendMessage := fun _ _ => Fulfilled tt |} |}.

(** A chatbot whose only user has a system prompt and five answered turns
    behind them. *)
Definition prompted : Chatbot Console.ConsoleAdapter ChatGPT.ChatGPTAdapter :=
  {| messagingAdapter := console;
     llmAdapter := saying "ok";
     llmOptions := None;
     conversationHistories :=
       {[ userId hello :=
            {| role := system; content := js "You are a helpful assistant." |}
            :: concat (replicate 5 [userEntry hello; assistantEntry (js "ok")]) ]};
     calls := [] |}.

End Fixtures.

(** * Properties *)

(** ** Strings *)

Lemma trimStart_head (s : jsstring) (c : N) :
  head (trimStart s) = Some c -> isWhiteSpace c = false.
Proof.
  induction s as [|d s IH]; cbn [trimStart]; [discriminate|].
  destruct (isWhiteSpace d) eqn:Hd; [exact IH|].
  cbn. intros [= <-]. exact Hd.
Qed.

Lemma trimStart_rev_cons (c : N) (s : jsstring) :
  isWhiteSpace c = false -> exists s', trimStart (rev (c :: s)) = s' ++ [c].
Proof.
  intros Hc. cbn [rev].
  induction (rev s) as [|d r IH]; cbn [app trimStart].
  - rewrite Hc. by exists [].
  - destruct (isWhiteSpace d); [exact IH|]. by exists (d :: r).
Qed.

Lemma trimEnd_last (s : jsstring) (c : N) :
  last (trimEnd s) = Some c -> isWhiteSpace c = false.
Proof.
  unfold trimEnd. intros Hl. apply (trimStart_head (rev s)).
  rewrite <- Hl. destruct (trimStart (rev s)) as [|d t]; [done|].
  cbn [rev head]. by rewrite last_snoc.
Qed.

Lemma trimEnd_head (s : jsstring) (c : N) :
  isWhiteSpace c = false -> head (trimEnd (c :: s)) = Some c.
Proof.
  intros Hc. unfold trimEnd.
  destruct (trimStart_rev_cons c s Hc) as [s' ->].
  by rewrite rev_app_distr.
Qed.

(** [trim] leaves no white space at either end. *)
Lemma trim_ends (s : jsstring) (c : N) :
  head (trim s) = Some c \/ last (trim s) = Some c -> isWhiteSpace c = false.
Proof.
  unfold trim. intros [Hh|Hl]; [|by eapply trimEnd_last].
  destruct (trimStart s) as [|d t] eqn:Ht; [discriminate|].
  assert (Hd : isWhiteSpace d = false).
  { apply (trimStart_head s). by rewrite Ht. }
  rewrite (trimEnd_head t d Hd) in Hh. by injection Hh as <-.
Qed.

(** ** The cap *)

Lemma systemPromptOffset_le (a : list LLMMessage) : systemPromptOffset a <= 1.
Proof. destruct a as [|m a]; cbn; [lia|]. destruct (decide _); lia. Qed.

(** Above the cap, [splice] removes [length a - maxHistoryLength] entries
    right after the offset. *)
Lemma capped_over (a : list LLMMessage) :
  maxHistoryLength < length a ->
  capped a =
    take (systemPromptOffset a) a
    ++ drop (systemPromptOffset a + (length a - maxHistoryLength)) a.
Proof.
  intros Hlen. unfold capped, splice.
  destruct (decide _) as [_|]; [|lia].
  pose proof (systemPromptOffset_le a) as Hoff. unfold maxHistoryLength in *.
  replace (Nat.min (systemPromptOffset a) (length a))
    with (systemPromptOffset a) by lia.
  replace (Nat.min (length a - 10) (length a - systemPromptOffset a))
    with (length a - 10) by lia.
  reflexivity.
Qed.

Lemma capped_under (a : list LLMMessage) :
  length a <= maxHistoryLength -> capped a = a.
Proof. intros Hlen. unfold capped. destruct (decide _); [lia|done]. Qed.

Lemma capped_length_over (a : list LLMMessage) :
  maxHistoryLength < length a -> length (capped a) = maxHistoryLength.
Proof.
  intros Hlen. rewrite (capped_over a Hlen).
  pose proof (systemPromptOffset_le a) as Hoff. unfold maxHistoryLength in *.
  rewrite length_app, length_take, length_drop. lia.
Qed.

Lemma capped_length (a : list LLMMessage) :
  length (capped a) <= maxHistoryLength.
Proof.
  destruct (decide (maxHistoryLength < length a)) as [Hlen|Hlen].
  - rewrite (capped_length_over a Hlen). lia.
  - rewrite capped_under; lia.
Qed.

Lemma capped_sublist (a : list LLMMessage) : sublist (capped a) a.
Proof.
  destruct (decide (maxHistoryLength < length a)) as [Hlen|Hlen].
  - rewrite (capped_over a Hlen).
    generalize (systemPromptOffset a) (length a - maxHistoryLength).
    intros i n. rewrite <- (take_drop i a) at 3.
    apply sublist_app; [done|].
    rewrite <- drop_drop. apply sublist_drop.
  - rewrite capped_under by lia. done.
Qed.

(** The cap keeps a leading system-role entry. *)
Lemma capped_head_system (a : list LLMMessage) (m : LLMMessage) :
  head a = Some m -> role m = system -> head (capped a) = Some m.
Proof.
  intros Hm Hrole.
  destruct (decide (maxHistoryLength < length a)) as [Hlen|Hlen].
  - rewrite (capped_over a Hlen). destruct a as [|x a]; [done|].
    injection Hm as ->. cbn [systemPromptOffset].
    destruct (decide (role m = system)); done.
  - rewrite capped_under by lia. done.
Qed.

(** The cap never removes the entry that was appended last. *)
Lemma capped_snoc (h : list LLMMessage) (x : LLMMessage) :
  exists k, capped (h ++ [x]) = k ++ [x].
Proof.
  destruct (decide (maxHistoryLength < length (h ++ [x]))) as [Hlen|Hlen].
  - rewrite (capped_over _ Hlen).
    pose proof (systemPromptOffset_le (h ++ [x])) as Hoff.
    rewrite length_app in *. cbn [length] in *. unfold maxHistoryLength in *.
    exists (take (systemPromptOffset (h ++ [x])) (h ++ [x])
            ++ drop (systemPromptOffset (h ++ [x]) + (length h + 1 - 10)) h).
    rewrite <- app_assoc. f_equal.
    rewrite drop_app_le by lia. reflexivity.
  - rewrite capped_under by lia. by exists h.
Qed.

(** ** One turn in closed form *)

Ltac hsimpl :=
  cbn -[splice systemPromptOffset maxHistoryLength truthy apologyText
        noResponseText].

Section Turn.

Context {M L : Type}.
Context `{!IMessagingPlatformAdapter M} `{!ILLMAdapter L}.
Implicit Types (this : Chatbot M L) (payload : MessagePayload).

Lemma alter_as_insert (f : list LLMMessage -> list LLMMessage)
    (k : jsstring) (x : list LLMMessage) (m : gmap jsstring (list LLMMessage)) :
  m !! k = Some x -> alter f k m = <[k := f x]> m.
Proof.
  intros Hk. apply map_eq. intros j.
  destruct (decide (k = j)) as [->|Hne].
  - rewrite lookup_alter_eq, lookup_insert_eq, Hk. reflexivity.
  - rewrite lookup_alter_ne, lookup_insert_ne by done. reflexivity.
Qed.

(** The state and the settlement of [handleIncomingMessage], spelled out in
    terms of what the two adapters answer. *)
Lemma handle_explicit payload this :
  let uid := userId payload in
  let h1 := capped (historyOf this uid ++ [userEntry payload]) in
  let gen := generateResponse (llmAdapter this) h1 (llmOptions this) in
  let h2 :=
    match gen.2 with
    | Fulfilled t => if truthy t then h1 ++ [assistantEntry t] else h1
    | Rejected _ => h1
    end in
  let first := sendMessage (messagingAdapter this) uid (replyOf gen.2) in
  let second := sendMessage first.1 uid apologyText in
  let again := negb (isRejected gen.2) && isRejected first.2 in
  handleIncomingMessage payload this =
    ({| messagingAdapter := if again then second.1 else first.1;
        llmAdapter := gen.1;
        llmOptions := llmOptions this;
        conversationHistories := <[uid := h2]> (conversationHistories this);
        calls := calls this
                 ++ [CallGenerateResponse h1 (llmOptions this);
                     CallSendMessage uid (replyOf gen.2)]
                 ++ (if again then [CallSendMessage uid apologyText] else []) |},
     if again then second.2 else first.2).
Proof.
  intros uid h1 gen h2 first second again.
  subst uid h1 gen h2 first second again.
  unfold handleIncomingMessage, historyOf, capped, replyOf, assistantEntry.
  destruct this as [m l o H cs].
  unfold bind, tryCatch, mapGet, mapSet, contents, inPlace, ret,
    awaitGenerateResponse, awaitSendMessage, setHistories.
  hsimpl.
  set (u := userEntry payload).
  change {| role := user; content := text payload |} with u.
  destruct (H !! userId payload) as [h|] eqn:Hh; hsimpl.
  all: erewrite alter_as_insert by (first [apply lookup_insert_eq | exact Hh]).
  all: rewrite ?insert_insert_eq, ?lookup_insert_eq; hsimpl.
  all: match goal with
       | |- context [decide (maxHistoryLength < ?n)] =>
           destruct (decide (maxHistoryLength < n))
       end; hsimpl.
  all: try (erewrite alter_as_insert by apply lookup_insert_eq).
  all: rewrite ?insert_insert_eq, ?lookup_insert_eq; hsimpl.
  all: destruct (generateResponse l _ o) as [l' [t|e]]; hsimpl.
  all: try (destruct (truthy t); hsimpl).
  all: try (erewrite alter_as_insert by apply lookup_insert_eq).
  all: rewrite ?insert_insert_eq, ?lookup_insert_eq; hsimpl.
  all: destruct (sendMessage m _ _) as [m' [[]|e']]; hsimpl.
  all: try (destruct (sendMessage m' _ _) as [m'' r'']; hsimpl).
  all: rewrite ?insert_insert_eq, <- ?app_assoc; reflexivity.
Qed.

(** The history of every user after a turn. *)
Lemma historyOf_handle payload this (key : jsstring) :
  historyOf (handleIncomingMessage payload this).1 key =
    if decide (key = userId payload) then
      capped (historyOf this key ++ [userEntry payload])
      ++ match answerOf payload this with
         | Some t => [assistantEntry t]
         | None => []
         end
    else historyOf this key.
Proof.
  rewrite handle_explicit. unfold historyOf at 1. cbn [fst conversationHistories].
  destruct (decide (key = userId payload)) as [->|Hne].
  - rewrite lookup_insert_eq. cbn [default]. unfold answerOf.
    destruct (generateResponse _ _ _).2 as [t|e]; [|by rewrite app_nil_r].
    destruct (truthy t); [done|by rewrite app_nil_r].
  - rewrite lookup_insert_ne by done. reflexivity.
Qed.

(** The calls a turn makes on the adapters, in order. *)
Lemma callsOf_handle payload this :
  let uid := userId payload in
  let h1 := capped (historyOf this uid ++ [userEntry payload]) in
  let gen := (generateResponse (llmAdapter this) h1 (llmOptions this)).2 in
  let first := (sendMessage (messagingAdapter this) uid (replyOf gen)).2 in
  callsOf (handleIncomingMessage payload) this =
    [CallGenerateResponse h1 (llmOptions this); CallSendMessage uid (replyOf gen)]
    ++ (if negb (isRejected gen) && isRejected first
        then [CallSendMessage uid apologyText] else []).
Proof.
  intros uid h1 gen first. subst uid h1 gen first.
  unfold callsOf. rewrite handle_explicit. cbn [fst calls].
  by rewrite drop_app_length.
Qed.

Lemma calls_handle payload this :
  calls (handleIncomingMessage payload this).1 =
    calls this ++ callsOf (handleIncomingMessage payload) this.
Proof.
  rewrite callsOf_handle, handle_explicit. reflexivity.
Qed.

(** What holds at the start and is kept by every turn holds after a run. *)
Lemma run_invariant (P : Chatbot M L -> Prop) :
  (forall payload this, P this -> P (handleIncomingMessage payload this).1) ->
  forall payloads this, P this -> P (run payloads this).
Proof.
  intros Hstep payloads.
  induction payloads as [|payload rest IH]; intros this Hthis; cbn [run].
  - exact Hthis.
  - apply IH, Hstep, Hthis.
Qed.

Lemma historyOf_new (m : M) (l : L) (o : option LLMOptions) (key : jsstring) :
  historyOf (newChatbot m l o) key = [].
Proof. unfold historyOf, newChatbot. cbn. by rewrite lookup_empty. Qed.

End Turn.

(** ** Shapes of histories *)

Lemma noSystem_offset (a : list LLMMessage) :
  noSystem a -> systemPromptOffset a = 0.
Proof.
  destruct a as [|m a]; [done|]. intros Ha. cbn.
  destruct (decide (role m = system)) as [Hm|]; [|done].
  by apply Forall_cons in Ha as [? _].
Qed.

(** Without a system prompt the cap drops from the front. *)
Lemma capped_noSystem (a : list LLMMessage) :
  noSystem a -> exists n, capped a = drop n a.
Proof.
  intros Ha. destruct (decide (maxHistoryLength < length a)) as [Hlen|Hlen].
  - exists (length a - maxHistoryLength).
    by rewrite (capped_over a Hlen), (noSystem_offset a Ha).
  - exists 0. rewrite capped_under by lia. done.
Qed.

Lemma noSystem_systemOnlyFirst (h : list LLMMessage) :
  noSystem h -> systemOnlyFirst h = true.
Proof.
  intros Hh. unfold systemOnlyFirst. apply forallb_forall. intros m Hm.
  unfold isSystem. apply negb_true_iff, bool_decide_eq_false.
  apply (proj1 (Forall_forall _ _) Hh). apply list_elem_of_In.
  destruct h as [|x h]; [done|]. cbn in Hm. by right.
Qed.

Lemma noRepeat_tail (r : Role) (x : Role) (rs : list Role) :
  noRepeat r (x :: rs) = true -> noRepeat r rs = true.
Proof.
  destruct rs as [|y rs]; [done|]. cbn [noRepeat].
  by intros [_ ?]%andb_true_iff.
Qed.

Lemma noRepeat_drop (r : Role) (n : nat) (rs : list Role) :
  noRepeat r rs = true -> noRepeat r (drop n rs) = true.
Proof.
  revert rs. induction n as [|n IH]; intros rs Hrs; [by rewrite drop_0|].
  destruct rs as [|x rs]; [done|]. cbn [drop].
  by eapply IH, noRepeat_tail.
Qed.

Lemma noRepeat_snoc (r : Role) (rs : list Role) (y : Role) :
  noRepeat r (rs ++ [y]) =
    noRepeat r rs && negb (bool_decide (last rs = Some r) && bool_decide (y = r)).
Proof.
  induction rs as [|x rs IH]; [done|].
  destruct rs as [|z rs].
  - cbn. repeat case_bool_decide; naive_solver.
  - change ((x :: z :: rs) ++ [y]) with (x :: (z :: rs) ++ [y]).
    change (noRepeat r (x :: (z :: rs) ++ [y]))
      with (negb (bool_decide (x = r) && bool_decide (z = r))
            && noRepeat r ((z :: rs) ++ [y])).
    rewrite IH. change (noRepeat r (x :: z :: rs))
      with (negb (bool_decide (x = r) && bool_decide (z = r))
            && noRepeat r (z :: rs)).
    change (last (x :: z :: rs)) with (last (z :: rs)).
    by rewrite andb_assoc.
Qed.

(** ** Length of the stored histories *)

Section Lengths.

Context {M L : Type}.
Context `{!IMessagingPlatformAdapter M} `{!ILLMAdapter L}.

Lemma handle_length_bound (payload : MessagePayload) (this : Chatbot M L) :
  (forall key, length (historyOf this key) <= maxHistoryLength + 1) ->
  forall key,
    length (historyOf (handleIncomingMessage payload this).1 key)
    <= maxHistoryLength + 1.
Proof.
  intros Hthis key. rewrite historyOf_handle.
  destruct (decide (key = userId payload)) as [_|_]; [|apply Hthis].
  rewrite length_app.
  pose proof (capped_length (historyOf this key ++ [userEntry payload])).
  destruct (answerOf payload this); cbn [length]; lia.
Qed.

Lemma handle_context_bound (payload : MessagePayload) (this : Chatbot M L) :
  Forall (fun messages => length messages <= maxHistoryLength)
    (contexts (callsOf (handleIncomingMessage payload) this)).
Proof.
  rewrite callsOf_handle.
  destruct (negb _ && _); cbn.
  all: apply Forall_cons; split; [apply capped_length | apply Forall_nil_2].
Qed.

End Lengths.

(** C1, as the code has it, for turns processed one after the other:
    whatever messages arrive and whatever the adapters answer, the history
    stored for a user after each completed turn has at most
    [maxHistoryLength + 1] = 11 entries (the cap is enforced when the user entry
    is appended, before the assistant entry is). *)
Theorem stored_history_at_most_cap_plus_one
    {M L : Type} `{!IMessagingPlatformAdapter M} `{!ILLMAdapter L}
    (m : M) (l : L) (o : option LLMOptions)
    (payloads : list MessagePayload) (key : jsstring) :
  length (historyOf (run payloads (newChatbot m l o)) key) <= maxHistoryLength + 1.
Proof.
  revert key.
  apply (run_invariant
           (fun this => forall key,
                length (historyOf this key) <= maxHistoryLength + 1)).
  - intros payload this. apply handle_length_bound.
  - intros key. rewrite historyOf_new. cbn. lia.
Qed.

(** C1 fails as stated: six answered turns of one user leave eleven entries
    in the stored history. *)
Lemma stored_history_exceeds_cap :
  let this := run (replicate 6 Fixtures.hello)
                (newChatbot Fixtures.console (Fixtures.saying "ok") None) in
  ~ length (historyOf this (userId Fixtures.hello)) <= maxHistoryLength.
Proof. vm_compute. lia. Qed.

(** C10: every message list handed to [generateResponse], in any run of the
    chatbot, has at most [maxHistoryLength] entries. *)
Theorem llm_context_at_most_cap
    {M L : Type} `{!IMessagingPlatformAdapter M} `{!ILLMAdapter L}
    (m : M) (l : L) (o : option LLMOptions) (payloads : list MessagePayload) :
  Forall (fun messages => length messages <= maxHistoryLength)
    (contexts (calls (run payloads (newChatbot m l o)))).
Proof.
  apply (run_invariant
           (fun this =>
              Forall (fun messages => length messages <= maxHistoryLength)
                (contexts (calls this)))).
  - intros payload this Hthis. rewrite calls_handle.
    unfold contexts. rewrite omap_app. apply Forall_app. split; [exact Hthis|].
    apply handle_context_bound.
  - constructor.
Qed.

(** ** Independence of the users *)

(** C8: a turn of user A leaves the stored history of every other user B as it
    was; only the entry of A in the map of histories can change. *)
Theorem other_histories_unchanged
    {M L : Type} `{!IMessagingPlatformAdapter M} `{!ILLMAdapter L}
    (payload : MessagePayload) (this : Chatbot M L) (B : jsstring) :
  userId payload <> B ->
  conversationHistories (handleIncomingMessage payload this).1 !! B
  = conversationHistories this !! B.
Proof.
  intros Hne. rewrite handle_explicit. cbn [fst conversationHistories].
  by rewrite lookup_insert_ne.
Qed.

Lemma other_histories_unchanged_witness :
  let this := run [Fixtures.payloadOf "B" "hi"]
                (newChatbot Fixtures.console (Fixtures.saying "ok") None) in
  conversationHistories
    (handleIncomingMessage (Fixtures.payloadOf "A" "hello") this).1 !! js "B"
  = conversationHistories this !! js "B".
Proof.
  intros this. apply (other_histories_unchanged (Fixtures.payloadOf "A" "hello") this).
  vm_compute. discriminate.
Defined.

(** ** The truncation step *)

(** C6: when the history with the new user entry appended is longer than the
    cap, the history the turn goes on with (the one handed to the LLM adapter,
    and the front of the one stored) is that history without the entries that
    follow the leading system-role entry, if there is one, the oldest first, as
    many as it takes to be at the cap; a leading system-role entry stays first,
    and the entries that stay keep their order. *)
Theorem truncation_removes_oldest_after_system
    {M L : Type} `{!IMessagingPlatformAdapter M} `{!ILLMAdapter L}
    (payload : MessagePayload) (this : Chatbot M L) :
  let a := historyOf this (userId payload) ++ [userEntry payload] in
  let offset := systemPromptOffset a in
  maxHistoryLength < length a ->
  exists kept,
    kept = take offset a ++ drop (offset + (length a - maxHistoryLength)) a
    /\ contexts (callsOf (handleIncomingMessage payload) this) = [kept]
    /\ kept `prefix_of`
         historyOf (handleIncomingMessage payload this).1 (userId payload)
    /\ length kept = maxHistoryLength
    /\ (forall m, head a = Some m -> role m = system ->
                  offset = 1 /\ head kept = Some m)
    /\ (forall m, head a = Some m -> role m <> system -> offset = 0)
    /\ sublist kept a.
Proof.
  intros a offset Hlen. exists (capped a).
  split; [apply (capped_over a Hlen)|].
  split.
  { rewrite callsOf_handle. fold a. by destruct (negb _ && _). }
  split.
  { rewrite historyOf_handle. fold a.
    destruct (decide _) as [_|]; [|done]. by eexists. }
  split; [apply (capped_length_over a Hlen)|].
  split.
  { intros m Hm Hrole. split; [|by apply capped_head_system].
    subst offset. destruct a as [|x a']; [done|]. injection Hm as ->.
    cbn. by destruct (decide _). }
  split; [|apply capped_sublist].
  intros m Hm Hrole. subst offset. destruct a as [|x a']; [done|].
  injection Hm as ->. cbn. by destruct (decide _).
Qed.

Lemma truncation_removes_oldest_after_system_witness :
  let this := run (replicate 5 Fixtures.hello)
                (newChatbot Fixtures.console (Fixtures.saying "ok") None) in
  let a := historyOf this (userId Fixtures.hello) ++ [userEntry Fixtures.hello] in
  exists kept,
    kept = take (systemPromptOffset a) a
           ++ drop (systemPromptOffset a + (length a - maxHistoryLength)) a
    /\ contexts (callsOf (handleIncomingMessage Fixtures.hello) this) = [kept]
    /\ kept `prefix_of`
         historyOf (handleIncomingMessage Fixtures.hello this).1
           (userId Fixtures.hello)
    /\ length kept = maxHistoryLength
    /\ (forall m, head a = Some m -> role m = system ->
                  systemPromptOffset a = 1 /\ head kept = Some m)
    /\ (forall m, head a = Some m -> role m <> system ->
                  systemPromptOffset a = 0)
    /\ sublist kept a.
Proof.
  intros this a.
  apply (truncation_removes_oldest_after_system Fixtures.hello this).
  vm_compute. lia.
Defined.

(** With a system prompt and five answered turns stored, the next turn evicts
    the oldest user/assistant pair and keeps the prompt. *)
Example cap_keeps_system_prompt :
  let this := Fixtures.prompted in
  let uid := userId Fixtures.hello in
  map role (historyOf this uid)
  = [system; user; assistant; user; assistant; user; assistant; user; assistant;
     user; assistant]
  /\ map (map role) (contexts (callsOf (handleIncomingMessage Fixtures.hello) this))
     = [[system; user; assistant; user; assistant; user; assistant; user;
         assistant; user]]
  /\ head (historyOf (handleIncomingMessage Fixtures.hello this).1 uid)
     = head (historyOf this uid).
Proof. vm_compute. repeat split. Qed.

(** ** What the user is sent *)

(** C3, as the code has it: a turn makes one [sendMessage] call, or two, all to
    the user of the payload, never none. The first carries the answer of the LLM
    adapter, the no-response notice when the answer is empty, or the apology
    when the LLM call failed; the second is made exactly when the first carried
    an answer or the notice and was rejected, and carries the apology. The
    promise of the handler settles the way the last of these calls does. *)
Theorem one_send_or_two
    {M L : Type} `{!IMessagingPlatformAdapter M} `{!ILLMAdapter L}
    (payload : MessagePayload) (this : Chatbot M L) :
  let uid := userId payload in
  let gen :=
    (generateResponse (llmAdapter this)
       (capped (historyOf this uid ++ [userEntry payload])) (llmOptions this)).2 in
  let first := sendMessage (messagingAdapter this) uid (replyOf gen) in
  let second := sendMessage first.1 uid apologyText in
  let again := negb (isRejected gen) && isRejected first.2 in
  let sent := sends (callsOf (handleIncomingMessage payload) this) in
  sent = (uid, replyOf gen) :: (if again then [(uid, apologyText)] else [])
  /\ length sent = (if again then 2 else 1)
  /\ (handleIncomingMessage payload this).2 = (if again then second.2 else first.2).
Proof.
  intros uid gen first second again sent. subst sent.
  rewrite callsOf_handle, handle_explicit. fold uid gen first second again.
  by destruct again.
Qed.

(** C3 fails as stated: when Telegram rejects the answer, the turn calls
    [sendMessage] twice. *)
Lemma two_sends_when_answer_rejected :
  let this := newChatbot Fixtures.blockedTelegram (Fixtures.saying "ok") None in
  let sent := sends (callsOf (handleIncomingMessage Fixtures.hello) this) in
  sent = [(userId Fixtures.hello, js "ok"); (userId Fixtures.hello, apologyText)]
  /\ length sent <> 1.
Proof. vm_compute. split; [reflexivity|lia]. Qed.

(** C4, as the code has it: when [generateResponse] rejects, the turn makes
    one [sendMessage] call, with the apology; the stored history is the capped
    history ending in the user entry, with no assistant entry appended; and the
    promise of the handler settles the way that [sendMessage] call does, so no
    exception escapes unless sending the apology fails. *)
Theorem llm_failure_sends_apology
    {M L : Type} `{!IMessagingPlatformAdapter M} `{!ILLMAdapter L}
    (payload : MessagePayload) (this : Chatbot M L) (l' : L) (e : JsError) :
  let uid := userId payload in
  let h1 := capped (historyOf this uid ++ [userEntry payload]) in
  generateResponse (llmAdapter this) h1 (llmOptions this) = (l', Rejected e) ->
  sends (callsOf (handleIncomingMessage payload) this) = [(uid, apologyText)]
  /\ historyOf (handleIncomingMessage payload this).1 uid = h1
  /\ last h1 = Some (userEntry payload)
  /\ (handleIncomingMessage payload this).2
     = (sendMessage (messagingAdapter this) uid apologyText).2.
Proof.
  intros uid h1 Hgen. split; [|split; [|split]].
  - rewrite callsOf_handle. fold uid h1. by rewrite Hgen.
  - rewrite historyOf_handle. fold uid. rewrite decide_True by done.
    unfold answerOf. fold uid h1. rewrite Hgen. apply app_nil_r.
  - subst h1. destruct (capped_snoc (historyOf this uid) (userEntry payload))
      as [k ->]. apply last_snoc.
  - rewrite handle_explicit. fold uid h1. by rewrite Hgen.
Qed.

Lemma llm_failure_sends_apology_witness :
  let this := newChatbot Fixtures.console Fixtures.unreachable None in
  let uid := userId Fixtures.hello in
  let h1 := capped (historyOf this uid ++ [userEntry Fixtures.hello]) in
  sends (callsOf (handleIncomingMessage Fixtures.hello) this) = [(uid, apologyText)]
  /\ historyOf (handleIncomingMessage Fixtures.hello this).1 uid = h1
  /\ last h1 = Some (userEntry Fixtures.hello)
  /\ (handleIncomingMessage Fixtures.hello this).2
     = (sendMessage (messagingAdapter this) uid apologyText).2.
Proof.
  intros this uid h1.
  apply (llm_failure_sends_apology Fixtures.hello this Fixtures.unreachable
           (Error (js "Failed to get response from ChatGPT"))).
  reflexivity.
Defined.

(** C4 fails as stated: when the LLM call fails and Telegram rejects the
    apology as well, the promise of the handler rejects. *)
Lemma apology_failure_escapes :
  let this := newChatbot Fixtures.blockedTelegram Fixtures.unreachable None in
  isRejected
    (generateResponse (llmAdapter this) [userEntry Fixtures.hello] None).2 = true
  /\ (handleIncomingMessage Fixtures.hello this).2
     = Rejected (Error (js "Forbidden: bot was blocked by the user")).
Proof. vm_compute. split; reflexivity. Qed.

(** C5, as the code has it: when [generateResponse] resolves with the empty
    string, the first [sendMessage] call of the turn carries the no-response
    notice (the apology follows if that call is rejected), and the stored
    history is the old one with the user entry appended and the cap applied:
    no assistant entry is appended. *)
Theorem empty_completion_sends_notice
    {M L : Type} `{!IMessagingPlatformAdapter M} `{!ILLMAdapter L}
    (payload : MessagePayload) (this : Chatbot M L) (l' : L) :
  let uid := userId payload in
  let h1 := capped (historyOf this uid ++ [userEntry payload]) in
  let first := (sendMessage (messagingAdapter this) uid noResponseText).2 in
  generateResponse (llmAdapter this) h1 (llmOptions this) = (l', Fulfilled []) ->
  sends (callsOf (handleIncomingMessage payload) this)
  = (uid, noResponseText) :: (if isRejected first then [(uid, apologyText)] else [])
  /\ historyOf (handleIncomingMessage payload this).1 uid = h1
  /\ last h1 = Some (userEntry payload).
Proof.
  intros uid h1 first Hgen. split; [|split].
  - rewrite callsOf_handle. fold uid h1. rewrite Hgen. cbn [snd replyOf truthy].
    fold first. by destruct (isRejected first).
  - rewrite historyOf_handle. fold uid. rewrite decide_True by done.
    unfold answerOf. fold uid h1. rewrite Hgen. apply app_nil_r.
  - subst h1. destruct (capped_snoc (historyOf this uid) (userEntry payload))
      as [k ->]. apply last_snoc.
Qed.

Lemma empty_completion_sends_notice_witness :
  let this := newChatbot Fixtures.console Fixtures.silent None in
  let uid := userId Fixtures.hello in
  let h1 := capped (historyOf this uid ++ [userEntry Fixtures.hello]) in
  let first := (sendMessage (messagingAdapter this) uid noResponseText).2 in
  sends (callsOf (handleIncomingMessage Fixtures.hello) this)
  = (uid, noResponseText) :: (if isRejected first then [(uid, apologyText)] else [])
  /\ historyOf (handleIncomingMessage Fixtures.hello this).1 uid = h1
  /\ last h1 = Some (userEntry Fixtures.hello).
Proof.
  intros this uid h1 first.
  apply (empty_completion_sends_notice Fixtures.hello this Fixtures.silent).
  reflexivity.
Defined.

(** C5 fails as stated: a completion of one space is blank, yet it is sent as
    the answer and appended as an assistant entry. *)
Lemma blank_completion_is_an_answer :
  let this := newChatbot Fixtures.console (Fixtures.saying " ") None in
  let uid := userId Fixtures.hello in
  (generateResponse (llmAdapter this) [userEntry Fixtures.hello] None).2
  = Fulfilled (js " ")
  /\ trim (js " ") = []
  /\ sends (callsOf (handleIncomingMessage Fixtures.hello) this) = [(uid, js " ")]
  /\ sends (callsOf (handleIncomingMessage Fixtures.hello) this)
     <> [(uid, noResponseText)]
  /\ historyOf (handleIncomingMessage Fixtures.hello this).1 uid
     = [userEntry Fixtures.hello; assistantEntry (js " ")].
Proof. vm_compute. repeat split. discriminate. Qed.

(** ** Order of the roles in a history *)

Section Roles.

Context {M L : Type}.
Context `{!IMessagingPlatformAdapter M} `{!ILLMAdapter L}.
Implicit Types (this : Chatbot M L) (payload : MessagePayload).

Lemma noRepeat_capped (r : Role) (a : list LLMMessage) :
  noSystem a -> noRepeat r (map role a) = true ->
  noRepeat r (map role (capped a)) = true.
Proof.
  intros Ha Hr. destruct (capped_noSystem a Ha) as [n ->].
  rewrite <- skipn_map. by apply noRepeat_drop.
Qed.

Lemma noSystem_capped (a : list LLMMessage) : noSystem a -> noSystem (capped a).
Proof.
  intros Ha. destruct (capped_noSystem a Ha) as [n ->]. by apply Forall_drop.
Qed.

Lemma noSystem_user (h : list LLMMessage) payload :
  noSystem h -> noSystem (h ++ [userEntry payload]).
Proof.
  intros Hh. apply Forall_app. split; [done|].
  by apply Forall_singleton.
Qed.

(** The history of the turn's user after the turn. *)
Lemma tidy_turn (h : list LLMMessage) payload (answer : option jsstring) :
  tidy h ->
  tidy (capped (h ++ [userEntry payload])
        ++ match answer with Some t => [assistantEntry t] | None => [] end).
Proof.
  intros [Hsys Hrep].
  pose proof (noSystem_user h payload Hsys) as Hsys'.
  assert (Hrep' : noRepeat assistant (map role (h ++ [userEntry payload])) = true).
  { rewrite map_app. cbn [map userEntry role]. rewrite noRepeat_snoc, Hrep.
    by rewrite (bool_decide_eq_false_2 (user = assistant)), andb_false_r. }
  pose proof (noSystem_capped _ Hsys') as Hsys''.
  pose proof (noRepeat_capped assistant _ Hsys' Hrep') as Hrep''.
  destruct answer as [t|]; [|by rewrite app_nil_r].
  split.
  - apply Forall_app. split; [done|]. by apply Forall_singleton.
  - destruct (capped_snoc h (userEntry payload)) as [k Hk].
    rewrite Hk in *. rewrite map_app. cbn [map assistantEntry role].
    rewrite noRepeat_snoc, Hrep''. rewrite map_app. cbn [map userEntry role].
    rewrite last_snoc.
    by rewrite (bool_decide_eq_false_2 (Some user = Some assistant)).
Qed.

Lemma paired_turn (h : list LLMMessage) payload (t : jsstring) :
  paired h ->
  paired (capped (h ++ [userEntry payload]) ++ [assistantEntry t]).
Proof.
  intros (Htidy & Hrep & Hlast).
  split; [apply (tidy_turn h payload (Some t) Htidy)|].
  destruct Htidy as [Hsys _].
  pose proof (noSystem_user h payload Hsys) as Hsys'.
  assert (Hrep' : noRepeat user (map role (h ++ [userEntry payload])) = true).
  { rewrite map_app. cbn [map userEntry role]. rewrite noRepeat_snoc, Hrep.
    by rewrite (bool_decide_eq_false_2 (last (map role h) = Some user)). }
  pose proof (noRepeat_capped user _ Hsys' Hrep') as Hrep''.
  rewrite map_app. cbn [map assistantEntry role]. split.
  - rewrite noRepeat_snoc, Hrep''.
    by rewrite (bool_decide_eq_false_2 (assistant = user)), andb_false_r.
  - by rewrite last_snoc.
Qed.

Lemma tidy_handle payload this :
  (forall key, tidy (historyOf this key)) ->
  forall key, tidy (historyOf (handleIncomingMessage payload this).1 key).
Proof.
  intros Hthis key. rewrite historyOf_handle.
  destruct (decide _); [by apply tidy_turn | apply Hthis].
Qed.

Lemma paired_run (payloads : list MessagePayload) this :
  (forall key, paired (historyOf this key)) ->
  allAnswered payloads this = true ->
  forall key, paired (historyOf (run payloads this) key).
Proof.
  revert this. induction payloads as [|payload rest IH]; intros this Hthis Hall.
  - exact Hthis.
  - cbn [run allAnswered] in *. apply andb_true_iff in Hall as [Hans Hall].
    apply IH; [|exact Hall].
    intros key. rewrite historyOf_handle.
    destruct (decide _) as [_|_]; [|apply Hthis].
    apply bool_decide_eq_true in Hans as [t ->].
    by apply paired_turn.
Qed.

(** The stored history is an end piece of what was stored at the start
    followed by what arrived since, in that order. *)
Lemma stored_suffix_of_arrivals (payloads : list MessagePayload) this
    (key : jsstring) :
  (forall k, tidy (historyOf this k)) ->
  historyOf (run payloads this) key
  `suffix_of` historyOf this key ++ arrivals payloads this key.
Proof.
  revert this. induction payloads as [|payload rest IH]; intros this Hthis.
  - cbn [run arrivals]. by rewrite app_nil_r.
  - cbn [run arrivals].
    etransitivity; [apply IH; by apply tidy_handle|].
    rewrite app_assoc. apply suffix_app.
    rewrite historyOf_handle. destruct (decide _) as [->|_].
    + destruct (Hthis (userId payload)) as [Hsys _].
      destruct (capped_noSystem _ (noSystem_user _ payload Hsys)) as [n ->].
      exists (take n (historyOf this (userId payload) ++ [userEntry payload])).
      rewrite app_assoc, take_drop, <- app_assoc. reflexivity.
    + by rewrite app_nil_r.
Qed.

End Roles.

(** C2, as the code has it, for turns processed one after the other: in
    every history stored between completed turns a system-role entry can only
    stand first (the chatbot creates none), and no two consecutive entries are
    assistant entries; the entries stand in arrival order, the history being an
    end piece of the sequence of entries appended for that user. Two
    consecutive user entries do occur, after a turn that was left without an
    answer. When every turn of the run was answered with a non-empty text, user
    and assistant entries alternate. *)
Theorem stored_history_shape
    {M L : Type} `{!IMessagingPlatformAdapter M} `{!ILLMAdapter L}
    (m : M) (l : L) (o : option LLMOptions)
    (payloads : list MessagePayload) (key : jsstring) :
  let h := historyOf (run payloads (newChatbot m l o)) key in
  systemOnlyFirst h = true
  /\ noRepeat assistant (map role h) = true
  /\ h `suffix_of` arrivals payloads (newChatbot m l o) key
  /\ (allAnswered payloads (newChatbot m l o) = true -> alternates h = true).
Proof.
  intros h.
  assert (Hnew : forall key, paired (historyOf (newChatbot m l o) key)).
  { intros k. rewrite historyOf_new.
    split; [split; [apply Forall_nil_2 | reflexivity] |].
    split; [reflexivity | discriminate]. }
  assert (Htidy : tidy h).
  { subst h. revert key.
    apply (run_invariant (fun this => forall key, tidy (historyOf this key))).
    - intros payload this. apply tidy_handle.
    - intros k. apply Hnew. }
  destruct Htidy as [Hsys Hrep].
  split; [by apply noSystem_systemOnlyFirst|]. split; [exact Hrep|]. split.
  { pose proof (stored_suffix_of_arrivals payloads (newChatbot m l o) key
                  (fun k => proj1 (Hnew k))) as Hsuffix.
    by rewrite historyOf_new in Hsuffix. }
  intros Hall. destruct (paired_run payloads _ Hnew Hall key) as (_ & Huser & _).
  unfold alternates. fold h in Huser.
  by rewrite (noSystem_systemOnlyFirst h Hsys), Huser, Hrep.
Qed.

Lemma stored_history_shape_witness :
  let payloads := replicate 7 Fixtures.hello in
  let this := newChatbot Fixtures.console (Fixtures.saying "ok") None in
  let h := historyOf (run payloads this) (userId Fixtures.hello) in
  systemOnlyFirst h = true
  /\ noRepeat assistant (map role h) = true
  /\ h `suffix_of` arrivals payloads this (userId Fixtures.hello)
  /\ alternates h = true.
Proof.
  intros payloads this h.
  destruct (stored_history_shape Fixtures.console (Fixtures.saying "ok") None
              payloads (userId Fixtures.hello)) as (H1 & H2 & H3 & H4).
  split; [exact H1|]. split; [exact H2|]. split; [exact H3|].
  apply H4. reflexivity.
Defined.

(** C2 fails as stated: two turns that the LLM adapter answers with the empty
    string leave two consecutive user entries. *)
Lemma unanswered_turns_leave_two_user_entries :
  let this := run (replicate 2 Fixtures.hello)
                (newChatbot Fixtures.console Fixtures.silent None) in
  let h := historyOf this (userId Fixtures.hello) in
  map role h = [user; user] /\ alternates h = false.
Proof. vm_compute. split; reflexivity. Qed.

(** ** The LLM adapters *)

(** The Gemini adapter returns the first text of the response, trimmed. *)
Lemma gemini_returns_trimmed (this : Gemini.GeminiAdapter)
    (msgs : list LLMMessage) (options : option LLMOptions) (t : jsstring) :
  (Gemini.generateResponse this msgs options).2 = Fulfilled t ->
  exists raw, t = trim raw
    /\ forall c, head t = Some c \/ last t = Some c -> isWhiteSpace c = false.
Proof.
  unfold Gemini.generateResponse.
  destruct (Gemini.generateContent _ _ _) as [result|error]; cbn [snd]; [|done].
  intros [= <-]. eexists. split; [reflexivity|]. apply trim_ends.
Qed.

(** The ChatGPT adapter returns the content of the first choice as it is. *)
Lemma chatgpt_returns_content (this : ChatGPT.ChatGPTAdapter)
    (msgs : list LLMMessage) (options : option LLMOptions)
    (completion : ChatGPT.ChatCompletion) :
  ChatGPT.create (ChatGPT.openai this)
    {| ChatGPT.model := modelOr options (ChatGPT.defaultModel this);
       ChatGPT.messages := msgs;
       ChatGPT.temperature := temperatureOf options;
       ChatGPT.max_tokens := maxTokensOf options |} = Fulfilled completion ->
  (ChatGPT.generateResponse this msgs options).2
  = Fulfilled (orEmpty (ChatGPT.firstContent completion)).
Proof. unfold ChatGPT.generateResponse. by intros ->. Qed.

(** C7 does not hold of the ChatGPT adapter: a completion whose content is
    [" hi "] is returned with its leading and trailing space, where the Gemini
    adapter returns ["hi"] for the same text. *)
Theorem chatgpt_returns_untrimmed :
  let gpt := Fixtures.saying " hi " in
  let gem :=
    {| Gemini.gemini :=
         {| Gemini.generateContent := fun _ _ =>
              Fulfilled
                {| Gemini.response :=
                     {| Gemini.candidates :=
                          Some [{| Gemini.content :=
                                     Some {| Gemini.crole := assistant;
                                             Gemini.parts :=
                                               Some [{| Gemini.text :=
                                                          Some (js " hi ") |}] |} |}]
                     |} |} |};
       Gemini.defaultModel := js "gemini-2.0-flash-lite" |} in
  (generateResponse gpt [userEntry Fixtures.hello] None).2 = Fulfilled (js " hi ")
  /\ head (js " hi ") ≫= (fun c => Some (isWhiteSpace c)) = Some true
  /\ js " hi " <> trim (js " hi ")
  /\ (generateResponse gem [userEntry Fixtures.hello] None).2 = Fulfilled (js "hi").
Proof. vm_compute. repeat split. discriminate. Qed.

(** ** The messaging adapters *)

(** What the console adapter writes for a send. *)
Lemma console_sendMessage_terminal (this : Console.ConsoleAdapter)
    (userId text : jsstring) :
  Console.terminal (Console.sendMessage this userId text).1 =
    Console.terminal this
    ++ [if decide (userId = Console.CONSOLE_USER_ID)
        then ConsoleLog (js "Bot: " ++ text)
        else ConsoleWarn
               (js "ConsoleAdapter: Attempted to send message to unknown user "
                ++ userId)]
    ++ match Console.rl this with
       | Some i => [Prompt (Console.prompt i)]
       | None => []
       end.
Proof.
  unfold Console.sendMessage, Console.rlPrompt, Console.write. cbn [fst].
  destruct (decide _); cbn [Console.rl Console.terminal];
    destruct (Console.rl this); cbn [Console.rl Console.terminal];
    by rewrite <- ?app_assoc, ?app_nil_r.
Qed.

(** C9, as the code has it: the Telegram and the Twilio adapter settle
    [sendMessage] the way the platform call settles, rejecting with the error of
    the platform when it rejects; the console adapter and the WhatsApp
    placeholder never reject, whoever the recipient is. *)
Theorem sendMessage_settlements :
  (forall this userId text,
      (Telegram.sendMessage this userId text).2
      = Telegram.botSendMessage (Telegram.bot this) userId text)
  /\ (forall this userId text,
         (TwilioWhatsApp.sendMessage this userId text).2
         = TwilioWhatsApp.messagesCreate (TwilioWhatsApp.client this)
             {| TwilioWhatsApp.body := text;
                TwilioWhatsApp.from :=
                  TwilioWhatsApp.twilioPhoneNumber (TwilioWhatsApp.config this);
                TwilioWhatsApp.to := userId |})
  /\ (forall this userId text,
         (Console.sendMessage this userId text).2 = Fulfilled tt)
  /\ (forall this userId text,
         (WhatsApp.sendMessage this userId text).2 = Fulfilled tt).
Proof.
  repeat split.
  - intros this userId text. unfold Telegram.sendMessage.
    by destruct (Telegram.botSendMessage _ _ _) as [[]|].
  - intros this userId text. unfold TwilioWhatsApp.sendMessage.
    by destruct (TwilioWhatsApp.messagesCreate _ _) as [[]|].
Qed.

(** C9 fails as stated: the console adapter resolves a send to a user that is
    not its console user; it only writes a warning. *)
Lemma console_resolves_for_unknown_user :
  let stranger := js "whatsapp:+14155238886" in
  let sent := Console.sendMessage Fixtures.console stranger (js "hi") in
  stranger <> Console.CONSOLE_USER_ID
  /\ isRejected sent.2 = false
  /\ Console.terminal sent.1
     = [ConsoleWarn
          (js "ConsoleAdapter: Attempted to send message to unknown user whatsapp:+14155238886")].
Proof. vm_compute. repeat split. discriminate. Qed.


(** * Further properties of the chatbot core *)

Section MoreTurns.

Context {M L : Type}.
Context `{!IMessagingPlatformAdapter M} `{!ILLMAdapter L}.
Implicit Types (this : Chatbot M L) (payload : MessagePayload).

(** What the cap keeps before the entry appended last is, in order, part of
    what was there before. *)
Lemma capped_snoc_sublist (h : list LLMMessage) (x : LLMMessage) :
  exists k, capped (h ++ [x]) = k ++ [x] /\ sublist k h.
Proof.
  destruct (decide (maxHistoryLength < length (h ++ [x]))) as [Hlen|Hlen].
  - rewrite (capped_over _ Hlen).
    pose proof (systemPromptOffset_le (h ++ [x])) as Hoff.
    rewrite length_app in *. cbn [length] in *. unfold maxHistoryLength in *.
    set (i := systemPromptOffset (h ++ [x])) in *.
    exists (take i h ++ drop (i + (length h + 1 - 10)) h). split.
    + rewrite <- app_assoc. f_equal; [by rewrite take_app_le by lia|].
      by rewrite drop_app_le by lia.
    + generalize (length h + 1 - 10). intros n.
      rewrite <- (take_drop i h) at 3. apply sublist_app; [done|].
      rewrite <- drop_drop. apply sublist_drop.
  - rewrite capped_under by lia. by exists h.
Qed.

Lemma capped_length_min (a : list LLMMessage) :
  length (capped a) = Nat.min (length a) maxHistoryLength.
Proof.
  destruct (decide (maxHistoryLength < length a)) as [Hlen|Hlen].
  - rewrite (capped_length_over a Hlen). lia.
  - rewrite capped_under by lia. lia.
Qed.

End MoreTurns.

(** X1: a turn calls the LLM adapter exactly once, before anything is sent,
    with the options of the chatbot and a context that ends with the user's new
    message; what precedes it in the context is, in order, part of the history
    stored before the turn. *)
Theorem turn_calls_llm_once_with_new_message_last
    {M L : Type} `{!IMessagingPlatformAdapter M} `{!ILLMAdapter L}
    (payload : MessagePayload) (this : Chatbot M L) :
  exists earlier rest,
    callsOf (handleIncomingMessage payload) this
    = CallGenerateResponse (earlier ++ [userEntry payload]) (llmOptions this) :: rest
    /\ contexts rest = []
    /\ sublist earlier (historyOf this (userId payload)).
Proof.
  rewrite callsOf_handle.
  destruct (capped_snoc_sublist (historyOf this (userId payload))
              (userEntry payload)) as (k & -> & Hk).
  eexists k, _. split; [reflexivity|]. split; [|exact Hk].
  by destruct (negb _ && _).
Qed.




(** X4: a turn never removes a user from the map of histories; the users
    known after it are those known before and the user of the payload, who is
    entered even when the LLM call fails. *)
Theorem turn_adds_only_the_users_key
    {M L : Type} `{!IMessagingPlatformAdapter M} `{!ILLMAdapter L}
    (payload : MessagePayload) (this : Chatbot M L) :
  dom (conversationHistories (handleIncomingMessage payload this).1)
  = {[userId payload]} ∪ dom (conversationHistories this).
Proof.
  rewrite handle_explicit. cbn [fst conversationHistories].
  apply dom_insert_L.
Qed.

Section MoreRuns.

Context {M L : Type}.
Context `{!IMessagingPlatformAdapter M} `{!ILLMAdapter L}.
Implicit Types (this : Chatbot M L) (payload : MessagePayload).


Lemma contexts_callsOf_handle payload this :
  length (contexts (callsOf (handleIncomingMessage payload) this)) = 1.
Proof. rewrite callsOf_handle. by destruct (negb _ && _). Qed.

Lemma sends_callsOf_handle payload this :
  1 <= length (sends (callsOf (handleIncomingMessage payload) this)) <= 2.
Proof. rewrite callsOf_handle. destruct (negb _ && _); cbn; lia. Qed.

Lemma run_call_counts (payloads : list MessagePayload) this :
  length (contexts (calls (run payloads this)))
  = length (contexts (calls this)) + length payloads
  /\ length (sends (calls this)) + length payloads
     <= length (sends (calls (run payloads this)))
     <= length (sends (calls this)) + 2 * length payloads.
Proof.
  revert this. induction payloads as [|payload rest IH]; intros this.
  - cbn [run length]. lia.
  - cbn [run length]. destruct (IH (handleIncomingMessage payload this).1)
      as [IHc IHs].
    rewrite calls_handle in IHc, IHs. unfold contexts, sends in *.
    rewrite omap_app, length_app in IHc.
    rewrite !omap_app, !length_app in IHs.
    pose proof (contexts_callsOf_handle payload this) as Hc.
    pose proof (sends_callsOf_handle payload this) as Hs.
    unfold contexts, sends in *. lia.
Qed.

End MoreRuns.


(** X6: a run over n messages calls the LLM adapter exactly n times (a failed
    call is never retried, none is skipped) and calls [sendMessage] at least n
    and at most 2n times. *)
Theorem run_calls_llm_once_per_message
    {M L : Type} `{!IMessagingPlatformAdapter M} `{!ILLMAdapter L}
    (m : M) (l : L) (o : option LLMOptions) (payloads : list MessagePayload) :
  let this := run payloads (newChatbot m l o) in
  length (contexts (calls this)) = length payloads
  /\ length payloads <= length (sends (calls this)) <= 2 * length payloads.
Proof.
  intros this. subst this.
  destruct (run_call_counts payloads (newChatbot m l o)) as [Hc Hs].
  change (contexts (calls (newChatbot m l o))) with (@nil (list LLMMessage)) in Hc.
  change (sends (calls (newChatbot m l o))) with (@nil (jsstring * jsstring)) in Hs.
  cbn [length] in Hc, Hs. lia.
Qed.

(** * The dummy LLM adapter of the composition root *)

Lemma findLast_last_filter {A : Type} (p : A -> bool) (a : list A) :
  Main.findLast p a = last (List.filter p a).
Proof.
  unfold Main.findLast. induction a as [|x a IH] using rev_ind; [done|].
  rewrite rev_app_distr, List.filter_app. cbn [rev app find List.filter].
  destruct (p x); [by rewrite last_snoc|].
  by rewrite app_nil_r.
Qed.

Lemma dummyReply_truthy (quoted : jsstring) :
  truthy (Main.dummyReply quoted) = true.
Proof. reflexivity. Qed.

(** X7: the dummy adapter never fails and never answers with an empty text:
    it quotes the content of the last user message of the context, or the word
    [undefined] when the context holds no user message. *)
Theorem dummy_quotes_last_user_message
    (this : Main.DummyAdapter) (messages : list LLMMessage)
    (options : option LLMOptions) :
  let users := List.filter (fun m => bool_decide (role m = user)) messages in
  let reply :=
    Main.dummyReply (default (js "undefined") (content <$> last users)) in
  generateResponse this messages options = (this, Fulfilled reply)
  /\ truthy reply = true.
Proof.
  intros users reply. split; [|apply dummyReply_truthy].
  cbn [generateResponse DummyAdapter_ILLMAdapter].
  unfold Main.generateResponse. rewrite findLast_last_filter. fold users.
  subst reply. by destruct (last users).
Qed.

Section DummyChatbot.

Context {M : Type} `{!IMessagingPlatformAdapter M}.
Implicit Types (this : Chatbot M Main.DummyAdapter) (payload : MessagePayload).

Lemma dummy_answerOf payload this :
  answerOf payload this = Some (Main.dummyReply (text payload)).
Proof.
  unfold answerOf.
  destruct (capped_snoc (historyOf this (userId payload)) (userEntry payload))
    as [k ->].
  cbn [generateResponse DummyAdapter_ILLMAdapter].
  unfold Main.generateResponse. rewrite findLast_last_filter.
  rewrite List.filter_app. cbn [List.filter userEntry role].
  rewrite bool_decide_eq_true_2 by done. rewrite last_snoc.
  cbn [snd content]. by rewrite dummyReply_truthy.
Qed.

Lemma dummy_allAnswered (payloads : list MessagePayload) this :
  allAnswered payloads this = true.
Proof.
  revert this. induction payloads as [|payload rest IH]; intros this; [done|].
  cbn [allAnswered]. rewrite IH, dummy_answerOf, andb_true_r.
  by apply bool_decide_eq_true_2.
Qed.

End DummyChatbot.


(** X9: with the dummy adapter behind it and the turns processed one after
    the other, whatever the messages and whoever their users, user and
    assistant entries alternate in every stored history. *)
Theorem dummy_chatbot_histories_alternate
    {M : Type} `{!IMessagingPlatformAdapter M}
    (m : M) (o : option LLMOptions)
    (payloads : list MessagePayload) (key : jsstring) :
  alternates (historyOf (run payloads (newChatbot m Main.Dummy o)) key) = true.
Proof.
  assert (Hnew : forall key, paired (historyOf (newChatbot m Main.Dummy o) key)).
  { intros k. rewrite historyOf_new.
    split; [split; [apply Forall_nil_2 | reflexivity] |].
    split; [reflexivity | discriminate]. }
  destruct (paired_run payloads _ Hnew (dummy_allAnswered payloads _) key)
    as ([Hsys Hrep] & Huser & _).
  unfold alternates.
  by rewrite (noSystem_systemOnlyFirst _ Hsys), Huser, Hrep.
Qed.

(** * Completions that carry no text *)

Lemma trimStart_split (s : jsstring) :
  exists pre, s = pre ++ trimStart s /\ forallb isWhiteSpace pre = true.
Proof.
  induction s as [|c s (pre & Hs & Hpre)]; [by exists []|].
  cbn [trimStart]. destruct (isWhiteSpace c) eqn:Hc; [|by exists []].
  exists (c :: pre). cbn [forallb app]. rewrite Hc, Hpre. by rewrite Hs at 1.
Qed.

Lemma trimEnd_split (s : jsstring) :
  exists post, s = trimEnd s ++ post /\ forallb isWhiteSpace post = true.
Proof.
  unfold trimEnd. destruct (trimStart_split (rev s)) as (pre & Hs & Hpre).
  exists (rev pre). split.
  - rewrite <- rev_app_distr, <- Hs. by rewrite rev_involutive.
  - apply forallb_forall. intros c Hc. apply in_rev in Hc.
    by apply (proj1 (forallb_forall _ _) Hpre).
Qed.

(** [trim] cuts white space off both ends and nothing else. *)
Lemma trim_split (s : jsstring) :
  exists pre post,
    s = pre ++ trim s ++ post
    /\ forallb isWhiteSpace pre = true /\ forallb isWhiteSpace post = true.
Proof.
  destruct (trimStart_split s) as (pre & Hs & Hpre).
  destruct (trimEnd_split (trimStart s)) as (post & Ht & Hpost).
  exists pre, post. unfold trim. by rewrite <- Ht.
Qed.

Lemma trim_blank (s : jsstring) :
  forallb isWhiteSpace s = true -> trim s = [].
Proof.
  intros Hs. unfold trim.
  assert (Hstart : trimStart s = []).
  { induction s as [|c s IH]; [done|]. cbn [forallb] in Hs.
    apply andb_true_iff in Hs as [Hc Hs]. cbn [trimStart]. rewrite Hc. auto. }
  by rewrite Hstart.
Qed.

(** X10: what the Gemini adapter returns is the first text of the provider's
    response with white space cut off at both ends and nothing else changed;
    a response without such a text gives the empty string. *)
Theorem gemini_returns_text_between_white_space
    (this : Gemini.GeminiAdapter) (msgs : list LLMMessage)
    (options : option LLMOptions) (result : Gemini.GenerateContentResult) :
  Gemini.generateContent (Gemini.gemini this)
    (modelOr options (Gemini.defaultModel this))
    {| Gemini.contents := map Gemini.toContent msgs;
       Gemini.temperature := temperatureOf options;
       Gemini.maxOutputTokens := maxTokensOf options |} = Fulfilled result ->
  exists t pre post,
    generateResponse this msgs options = (this, Fulfilled t)
    /\ default [] (Gemini.firstText result) = pre ++ t ++ post
    /\ forallb isWhiteSpace pre = true /\ forallb isWhiteSpace post = true
    /\ (forall c, head t = Some c \/ last t = Some c -> isWhiteSpace c = false).
Proof.
  intros Hres. cbn [generateResponse GeminiAdapter_ILLMAdapter].
  unfold Gemini.generateResponse. rewrite Hres.
  assert (Hraw : orEmpty (Gemini.firstText result)
                 = default [] (Gemini.firstText result)).
  { destruct (Gemini.firstText result) as [[|c s]|]; reflexivity. }
  rewrite Hraw.
  destruct (trim_split (default [] (Gemini.firstText result)))
    as (pre & post & Hs & Hpre & Hpost).
  exists (trim (default [] (Gemini.firstText result))), pre, post.
  repeat split; try done. apply trim_ends.
Qed.

Lemma gemini_returns_text_between_white_space_witness :
  exists t pre post,
    generateResponse (Fixtures.geminiSaying "  hi there ")
      [userEntry Fixtures.hello] None
    = (Fixtures.geminiSaying "  hi there ", Fulfilled t)
    /\ js "  hi there " = pre ++ t ++ post
    /\ forallb isWhiteSpace pre = true /\ forallb isWhiteSpace post = true
    /\ (forall c, head t = Some c \/ last t = Some c -> isWhiteSpace c = false).
Proof.
  apply (gemini_returns_text_between_white_space
           (Fixtures.geminiSaying "  hi there ") [userEntry Fixtures.hello] None
           {| Gemini.response :=
                {| Gemini.candidates :=
                     Some [{| Gemini.content :=
                                Some {| Gemini.crole := assistant;
                                        Gemini.parts :=
                                          Some [{| Gemini.text :=
                                                     Some (js "  hi there ") |}] |} |}]
                |} |}).
  reflexivity.
Defined.

(** X11: behind the chatbot, the Gemini adapter turns a completion made of
    white space only (or without any text) into the no-response notice: the
    notice is the first text sent, and no assistant entry is stored. *)
Theorem gemini_blank_completion_gets_notice
    {M : Type} `{!IMessagingPlatformAdapter M}
    (payload : MessagePayload) (this : Chatbot M Gemini.GeminiAdapter)
    (result : Gemini.GenerateContentResult) :
  let uid := userId payload in
  let h1 := capped (historyOf this uid ++ [userEntry payload]) in
  Gemini.generateContent (Gemini.gemini (llmAdapter this))
    (modelOr (llmOptions this) (Gemini.defaultModel (llmAdapter this)))
    {| Gemini.contents := map Gemini.toContent h1;
       Gemini.temperature := temperatureOf (llmOptions this);
       Gemini.maxOutputTokens := maxTokensOf (llmOptions this) |}
  = Fulfilled result ->
  forallb isWhiteSpace (default [] (Gemini.firstText result)) = true ->
  head (sends (callsOf (handleIncomingMessage payload) this))
  = Some (uid, noResponseText)
  /\ historyOf (handleIncomingMessage payload this).1 uid = h1
  /\ last h1 = Some (userEntry payload).
Proof.
  intros uid h1 Hres Hblank.
  assert (Hgen : (generateResponse (llmAdapter this) h1 (llmOptions this)).2
                 = Fulfilled []).
  { cbn [generateResponse GeminiAdapter_ILLMAdapter].
    unfold Gemini.generateResponse. rewrite Hres. cbn [snd]. f_equal.
    apply trim_blank.
    by destruct (Gemini.firstText result) as [[|c s]|]. }
  split; [|split].
  - rewrite callsOf_handle. fold uid h1. rewrite Hgen. cbn [replyOf truthy].
    by destruct (negb _ && _).
  - rewrite historyOf_handle. fold uid. rewrite decide_True by done.
    unfold answerOf. fold uid h1. rewrite Hgen. apply app_nil_r.
  - subst h1. destruct (capped_snoc (historyOf this uid) (userEntry payload))
      as [k ->]. apply last_snoc.
Qed.

Lemma gemini_blank_completion_gets_notice_witness :
  let this := newChatbot Fixtures.console (Fixtures.geminiSaying "   ") None in
  let uid := userId Fixtures.hello in
  let h1 := capped (historyOf this uid ++ [userEntry Fixtures.hello]) in
  head (sends (callsOf (handleIncomingMessage Fixtures.hello) this))
  = Some (uid, noResponseText)
  /\ historyOf (handleIncomingMessage Fixtures.hello this).1 uid = h1
  /\ last h1 = Some (userEntry Fixtures.hello).
Proof.
  intros this uid h1.
  apply (gemini_blank_completion_gets_notice Fixtures.hello this
           {| Gemini.response :=
                {| Gemini.candidates :=
                     Some [{| Gemini.content :=
                                Some {| Gemini.crole := assistant;
                                        Gemini.parts :=
                                          Some [{| Gemini.text :=
                                                     Some (js "   ") |}] |} |}]
                |} |}); reflexivity.
Defined.

(** X12: behind the chatbot, the ChatGPT adapter turns a completion that has
    no choice, no message, no content or an empty content into the no-response
    notice rather than an error: the notice is the first text sent, and no
    assistant entry is stored. *)
Theorem chatgpt_missing_content_gets_notice
    {M : Type} `{!IMessagingPlatformAdapter M}
    (payload : MessagePayload) (this : Chatbot M ChatGPT.ChatGPTAdapter)
    (completion : ChatGPT.ChatCompletion) :
  let uid := userId payload in
  let h1 := capped (historyOf this uid ++ [userEntry payload]) in
  ChatGPT.create (ChatGPT.openai (llmAdapter this))
    {| ChatGPT.model :=
         modelOr (llmOptions this) (ChatGPT.defaultModel (llmAdapter this));
       ChatGPT.messages := h1;
       ChatGPT.temperature := temperatureOf (llmOptions this);
       ChatGPT.max_tokens := maxTokensOf (llmOptions this) |}
  = Fulfilled completion ->
  default [] (ChatGPT.firstContent completion) = [] ->
  head (sends (callsOf (handleIncomingMessage payload) this))
  = Some (uid, noResponseText)
  /\ historyOf (handleIncomingMessage payload this).1 uid = h1
  /\ last h1 = Some (userEntry payload).
Proof.
  intros uid h1 Hres Hempty.
  assert (Hgen : (generateResponse (llmAdapter this) h1 (llmOptions this)).2
                 = Fulfilled []).
  { cbn [generateResponse ChatGPTAdapter_ILLMAdapter].
    unfold ChatGPT.generateResponse. rewrite Hres. cbn [snd]. f_equal.
    destruct (ChatGPT.firstContent completion) as [[|c s]|]; done. }
  split; [|split].
  - rewrite callsOf_handle. fold uid h1. rewrite Hgen. cbn [replyOf truthy].
    by destruct (negb _ && _).
  - rewrite historyOf_handle. fold uid. rewrite decide_True by done.
    unfold answerOf. fold uid h1. rewrite Hgen. apply app_nil_r.
  - subst h1. destruct (capped_snoc (historyOf this uid) (userEntry payload))
      as [k ->]. apply last_snoc.
Qed.

Lemma chatgpt_missing_content_gets_notice_witness :
  let this :=
    newChatbot Fixtures.console
      (Fixtures.chatGPT
         (fun _ => Fulfilled
                     {| ChatGPT.choices := [{| ChatGPT.message := None |}] |}))
      None in
  let uid := userId Fixtures.hello in
  let h1 := capped (historyOf this uid ++ [userEntry Fixtures.hello]) in
  head (sends (callsOf (handleIncomingMessage Fixtures.hello) this))
  = Some (uid, noResponseText)
  /\ historyOf (handleIncomingMessage Fixtures.hello this).1 uid = h1
  /\ last h1 = Some (userEntry Fixtures.hello).
Proof.
  intros this uid h1.
  apply (chatgpt_missing_content_gets_notice Fixtures.hello this
           {| ChatGPT.choices := [{| ChatGPT.message := None |}] |});
    reflexivity.
Defined.

(** * The Telegram adapter, inbound *)

Lemma js_inj (s1 s2 : string) : js s1 = js s2 -> s1 = s2.
Proof.
  unfold js. intros Heq.
  rewrite <- (string_of_list_ascii_of_string s1),
          <- (string_of_list_ascii_of_string s2).
  f_equal. revert Heq.
  generalize (list_ascii_of_string s1) (list_ascii_of_string s2).
  intros l1. induction l1 as [|a l1 IH]; intros [|b l2]; cbn; try done.
  intros [= Hab Hl]. f_equal; [|by apply IH].
  rewrite <- (ascii_N_embedding a), <- (ascii_N_embedding b). by rewrite Hab.
Qed.

(** Different integers have different decimal forms. *)
Lemma toString_inj (a b : Z) : toString a = toString b -> a = b.
Proof.
  unfold toString. intros Heq%js_inj.
  assert (Hok : forall z,
             NilZero.int_of_string (NilZero.string_of_int (Z.to_int z))
             = Some (Z.to_int z)).
  { intros z. apply NilZero.isi; destruct z; cbn; try discriminate.
    all: intros [= H]; by apply (Unsigned.to_uint_nonnil p). }
  pose proof (Hok a) as Ha. rewrite Heq, Hok in Ha. injection Ha as Ha.
  rewrite <- (DecimalZ.of_to a), <- (DecimalZ.of_to b). by rewrite Ha.
Qed.

Lemma orElse_truthy (a : option jsstring) (b : jsstring) :
  truthy b = true -> truthy (orElse a b) = true.
Proof.
  intros Hb. destruct a as [s|]; [|done]. cbn.
  by destruct (truthy s) eqn:Hs.
Qed.

Lemma displayName_truthy (msg : TelegramEvents.Message) :
  truthy (TelegramEvents.displayName msg) = true.
Proof.
  unfold TelegramEvents.displayName. by do 2 apply orElse_truthy.
Qed.

(** X13: the Telegram listener never rejects, whatever the callback does. It
    either leaves everything as it is, or invokes the callback once, for a
    message that was not sent by a bot, with a payload whose text is the
    non-empty text of the message, whose user name is not empty, whose user is
    the chat identifier in decimal and whose time is the date of the message in
    milliseconds. *)
Theorem telegram_message_ignored_or_delivered
    {W : Type} (onMessageCallback : option (Callback W))
    (msg : TelegramEvents.Message) (w : W) :
  let r := TelegramEvents.handleTelegramMessage onMessageCallback msg w in
  r.2 = Fulfilled tt
  /\ (r.1 = w
      \/ exists callback p name,
           onMessageCallback = Some callback
           /\ r.1 = (callback p w).1
           /\ TelegramEvents.text msg = Some (text p)
           /\ truthy (text p) = true
           /\ TelegramEvents.is_bot <$> TelegramEvents.from msg <> Some true
           /\ userName p = Some name /\ truthy name = true
           /\ userId p = toString (TelegramEvents.id (TelegramEvents.chat msg))
           /\ timestamp p = (TelegramEvents.date msg * 1000)%Z).
Proof.
  intros r. subst r. unfold TelegramEvents.handleTelegramMessage.
  destruct (negb _ || _) eqn:Hskip; [by split; [|left]|].
  destruct onMessageCallback as [callback|]; [|by split; [|left]].
  apply orb_false_iff in Hskip as [Htext Hbot]. apply negb_false_iff in Htext.
  split.
  - by destruct (callback _ w) as [w' [[]|e]].
  - right. exists callback, (TelegramEvents.payloadOf msg),
      (TelegramEvents.displayName msg).
    split; [done|]. split; [by destruct (callback _ w) as [w' [[]|e]]|].
    destruct (TelegramEvents.text msg) as [t|] eqn:Ht; [|done].
    cbn in Htext. destruct (truthy t) eqn:Hs; [|done].
    unfold TelegramEvents.payloadOf. rewrite Ht. cbn. rewrite Hs.
    repeat split; try done; [|apply displayName_truthy].
    intros Hb. rewrite Hb in Hbot. discriminate.
Qed.

(** X14: a message in one Telegram chat never changes the history of another
    chat: chats with different identifiers are different users of the
    chatbot. *)
Theorem telegram_chats_do_not_share_history
    {M L : Type} `{!IMessagingPlatformAdapter M} `{!ILLMAdapter L}
    (msg : TelegramEvents.Message) (this : Chatbot M L) (other : Z) :
  TelegramEvents.id (TelegramEvents.chat msg) <> other ->
  historyOf
    (TelegramEvents.handleTelegramMessage (Some handleIncomingMessage) msg this).1
    (toString other)
  = historyOf this (toString other).
Proof.
  intros Hne. unfold TelegramEvents.handleTelegramMessage.
  destruct (negb _ || _); [done|].
  assert (Hturn :
    historyOf (handleIncomingMessage (TelegramEvents.payloadOf msg) this).1
      (toString other) = historyOf this (toString other)).
  { rewrite historyOf_handle. rewrite decide_False; [done|].
    cbn. intros Heq. by apply Hne, toString_inj. }
  by destruct (handleIncomingMessage _ this) as [w' [[]|e]].
Qed.

Lemma telegram_chats_do_not_share_history_witness :
  let this := (TelegramEvents.handleTelegramMessage (Some handleIncomingMessage)
                 (Fixtures.telegramText 7 "hi")
                 (newChatbot Fixtures.telegram (Fixtures.saying "ok") None)).1 in
  historyOf
    (TelegramEvents.handleTelegramMessage (Some handleIncomingMessage)
       (Fixtures.telegramText 42 "hello") this).1
    (toString 7)
  = historyOf this (toString 7).
Proof.
  intros this.
  apply (telegram_chats_do_not_share_history
           (Fixtures.telegramText 42 "hello") this 7).
  vm_compute. discriminate.
Defined.

(** X15: the constructor of the Telegram adapter throws exactly when the token
    is empty. Otherwise the bot gets the token and options in which polling is
    set or a webhook is, the webhook setting is the caller's, and a polling
    setting given by the caller, be it [false], is kept. *)
Theorem telegram_constructor_settles_options
    (token : jsstring) (options : option TelegramEvents.ConstructorOptions) :
  match TelegramEvents.constructorArguments token options with
  | inl _ => token = []
  | inr (t, o) =>
      t = token /\ token <> []
      /\ (TelegramEvents.polling o <> None
          \/ TelegramEvents.isSet (TelegramEvents.webHook o) = true)
      /\ TelegramEvents.webHook o = options ≫= TelegramEvents.webHook
      /\ (forall p, options ≫= TelegramEvents.polling = Some p ->
                    TelegramEvents.polling o = Some p)
  end.
Proof.
  unfold TelegramEvents.constructorArguments.
  destruct token as [|c token]; [done|]. cbn [truthy negb].
  destruct options as [[[p|] wh]|]; cbn.
  - repeat split; try done. by left.
  - destruct (TelegramEvents.isSet wh) eqn:Hwh; cbn.
    + repeat split; try done. by right.
    + repeat split; try done. by left.
  - repeat split; try done. by left.
Qed.

(** * The console adapter, inbound *)

(** X16: in a chatbot on the console adapter, every line typed is answered on
    the terminal: the listener never rejects, the turn makes one [sendMessage]
    call, to the console user, and what is written is the reply after [Bot: ]
    (never the warning about an unknown user) followed by the prompt, twice
    when there is a readline interface. The reply answers the line with the
    white space at its ends removed. *)
Theorem console_line_is_answered_on_the_terminal
    {L : Type} `{!ILLMAdapter L}
    (this : Chatbot Console.ConsoleAdapter L) (now : Z) (line : jsstring) :
  let uid := Console.CONSOLE_USER_ID in
  let entry := {| role := user; content := trim line |} in
  let gen :=
    (generateResponse (llmAdapter this)
       (capped (historyOf this uid ++ [entry])) (llmOptions this)).2 in
  let prompts :=
    match Console.rl (messagingAdapter this) with
    | Some i => [Prompt (Console.prompt i)]
    | None => []
    end in
  let r := ConsoleEvents.lineListener (Some handleIncomingMessage) now line this in
  r.2 = Fulfilled tt
  /\ sends (drop (length (calls this)) (calls r.1)) = [(uid, replyOf gen)]
  /\ Console.terminal (messagingAdapter r.1)
     = Console.terminal (messagingAdapter this)
       ++ [ConsoleLog (js "Bot: " ++ replyOf gen)] ++ prompts ++ prompts.
Proof.
  intros uid entry gen prompts r. subst r.
  unfold ConsoleEvents.lineListener. rewrite handle_explicit.
  change (userId (ConsoleEvents.payloadOf now line)) with uid.
  change (userEntry (ConsoleEvents.payloadOf now line)) with entry.
  fold gen. cbn [fst snd messagingAdapter calls sendMessage
                 ConsoleAdapter_IMessagingPlatformAdapter Console.sendMessage].
  rewrite andb_false_r. split; [done|]. split.
  - by rewrite drop_app_length, app_nil_r.
  - rewrite decide_True by done.
    unfold Console.rlPrompt, Console.write. subst prompts.
    destruct (Console.rl (messagingAdapter this)) as [i|];
      cbn [Console.rl Console.terminal]; by rewrite <- ?app_assoc, ?app_nil_r.
Qed.

(** * A conversation of one user *)

Section OneUser.

Context {M L : Type}.
Context `{!IMessagingPlatformAdapter M} `{!ILLMAdapter L}.
Implicit Types (this : Chatbot M L) (payload : MessagePayload).

Lemma answered_run_length (uid : jsstring) (payloads : list MessagePayload)
    this (turns : nat) :
  Forall (fun payload => userId payload = uid) payloads ->
  allAnswered payloads this = true ->
  length (historyOf this uid) = Nat.min (2 * turns) (maxHistoryLength + 1) ->
  length (historyOf (run payloads this) uid)
  = Nat.min (2 * (turns + length payloads)) (maxHistoryLength + 1).
Proof.
  revert this turns.
  induction payloads as [|payload rest IH]; intros this turns Huid Hall Hlen.
  - cbn [run length]. by rewrite Nat.add_0_r.
  - apply Forall_cons in Huid as [Hp Hrest].
    cbn [run allAnswered length] in *.
    apply andb_true_iff in Hall as [Hans Hall].
    replace (turns + S (length rest)) with (S turns + length rest) by lia.
    apply IH; [done..|]. subst uid.
    rewrite historyOf_handle, decide_True by done.
    apply bool_decide_eq_true in Hans as [t ->].
    rewrite length_app, capped_length_min, length_app. cbn [length].
    rewrite Hlen. unfold maxHistoryLength. lia.
Qed.

(** In a list of user and assistant roles that alternate, the last role is
    the first one exactly when the length is odd. *)
Lemma alternating_last (x : Role) (rs : list Role) :
  Forall (fun r => r <> system) (x :: rs) ->
  noRepeat user (x :: rs) = true -> noRepeat assistant (x :: rs) = true ->
  Nat.even (length rs) = true -> last (x :: rs) = Some x.
Proof.
  revert x. induction rs as [rs IH] using (induction_ltof1 _ (@length _)).
  unfold ltof in IH. intros x Hsys Hu Ha Heven.
  destruct rs as [|y [|z rs]]; [done|done|].
  apply Forall_cons in Hsys as [Hx Hsys].
  pose proof Hsys as Hsys'. apply Forall_cons in Hsys' as [Hy Hsys'].
  pose proof Hsys' as Hsys''. apply Forall_cons in Hsys'' as [Hz _].
  cbn [noRepeat] in Hu, Ha.
  apply andb_true_iff in Hu as [Hu1 Hu]. apply andb_true_iff in Hu as [Hu2 Hu].
  apply andb_true_iff in Ha as [Ha1 Ha]. apply andb_true_iff in Ha as [Ha2 Ha].
  assert (Hzx : z = x).
  { destruct x, y, z; try done. }
  subst z. change (last (x :: y :: x :: rs)) with (last (x :: rs)).
  apply IH.
  - cbn [length]. lia.
  - done.
  - destruct rs as [|w rs]; [done|]. cbn [noRepeat] in *. done.
  - destruct rs as [|w rs]; [done|]. cbn [noRepeat] in *. done.
  - by cbn [length Nat.even] in Heven.
Qed.

Lemma answered_arrivals_length (uid : jsstring)
    (payloads : list MessagePayload) this :
  Forall (fun payload => userId payload = uid) payloads ->
  allAnswered payloads this = true ->
  length (arrivals payloads this uid) = 2 * length payloads.
Proof.
  revert this. induction payloads as [|payload rest IH]; intros this Huid Hall.
  - reflexivity.
  - apply Forall_cons in Huid as [Hp Hrest].
    cbn [arrivals allAnswered length] in *.
    apply andb_true_iff in Hall as [Hans Hall].
    rewrite length_app, (IH _ Hrest Hall), decide_True by done.
    apply bool_decide_eq_true in Hans as [t ->]. cbn [length]. lia.
Qed.

End OneUser.

(** X18: in a conversation of one user whose turns are processed one after
    the other and are each answered with a non-empty text, the stored history
    has two entries per turn up to the fifth turn and eleven entries from the
    sixth turn on. *)
Theorem answered_conversation_length
    {M L : Type} `{!IMessagingPlatformAdapter M} `{!ILLMAdapter L}
    (m : M) (l : L) (o : option LLMOptions)
    (uid : jsstring) (payloads : list MessagePayload) :
  Forall (fun payload => userId payload = uid) payloads ->
  allAnswered payloads (newChatbot m l o) = true ->
  length (historyOf (run payloads (newChatbot m l o)) uid)
  = Nat.min (2 * length payloads) (maxHistoryLength + 1).
Proof.
  intros Huid Hall.
  apply (answered_run_length uid payloads (newChatbot m l o) 0 Huid Hall).
  by rewrite historyOf_new.
Qed.

Lemma answered_conversation_length_witness :
  let payloads := replicate 8 Fixtures.hello in
  length (historyOf
            (run payloads (newChatbot Fixtures.console (Fixtures.saying "ok") None))
            (userId Fixtures.hello))
  = Nat.min (2 * length payloads) (maxHistoryLength + 1).
Proof.
  intros payloads.
  apply (answered_conversation_length Fixtures.console (Fixtures.saying "ok")
           None (userId Fixtures.hello) payloads).
  - repeat constructor.
  - reflexivity.
Defined.

(** X19: in such a conversation (turns processed one after the other, each
    answered with a non-empty text), from the sixth turn on the stored history
    is the sequence of the entries appended for the user, two per turn in
    arrival order, without its first 2n - 11 entries, n being the number of
    turns: after the sixth turn it lacks the first user message only. So it
    begins with an assistant entry, the answer to a user message that is
    gone. *)
Theorem long_conversation_begins_with_an_answer
    {M L : Type} `{!IMessagingPlatformAdapter M} `{!ILLMAdapter L}
    (m : M) (l : L) (o : option LLMOptions)
    (uid : jsstring) (payloads : list MessagePayload) :
  Forall (fun payload => userId payload = uid) payloads ->
  allAnswered payloads (newChatbot m l o) = true ->
  6 <= length payloads ->
  let h := historyOf (run payloads (newChatbot m l o)) uid in
  let log := arrivals payloads (newChatbot m l o) uid in
  length log = 2 * length payloads
  /\ h = drop (2 * length payloads - (maxHistoryLength + 1)) log
  /\ exists first, head h = Some first /\ role first = assistant.
Proof.
  intros Huid Hall Hsix h log.
  pose proof (answered_run_length uid payloads (newChatbot m l o) 0 Huid Hall)
    as Hlen.
  rewrite historyOf_new in Hlen. specialize (Hlen eq_refl). fold h in Hlen.
  pose proof (answered_arrivals_length uid payloads (newChatbot m l o) Huid Hall)
    as Hlog.
  fold log in Hlog.
  assert (Hnew : forall key, paired (historyOf (newChatbot m l o) key)).
  { intros k. rewrite historyOf_new.
    split; [split; [apply Forall_nil_2 | reflexivity] |].
    split; [reflexivity | discriminate]. }
  split; [exact Hlog|]. split.
  { pose proof (stored_suffix_of_arrivals payloads (newChatbot m l o) uid
                  (fun k => proj1 (Hnew k))) as [front Hfront].
    rewrite historyOf_new in Hfront. cbn [app] in Hfront.
    fold h log in Hfront.
    assert (Hk : 2 * length payloads - (maxHistoryLength + 1) = length front).
    { apply (f_equal length) in Hfront. rewrite length_app in Hfront.
      unfold maxHistoryLength in *. cbn [Nat.add] in *. lia. }
    rewrite Hk, Hfront. by rewrite drop_app_length. }
  destruct (paired_run payloads _ Hnew Hall uid) as ([Hsys Hrep] & Huser & Hlast).
  fold h in Hsys, Hrep, Huser, Hlast.
  destruct h as [|first rest];
    [cbn in Hlen; unfold maxHistoryLength in Hlen; lia|].
  exists first. split; [done|].
  assert (Hfirst : last (map role (first :: rest)) = Some (role first)).
  { cbn [map]. apply alternating_last.
    - change (role first :: map role rest) with (map role (first :: rest)).
      apply Forall_forall. intros r Hr.
      apply list_elem_of_In, in_map_iff in Hr as (x & <- & Hx).
      apply (proj1 (Forall_forall _ _) Hsys). by apply list_elem_of_In.
    - exact Huser.
    - exact Hrep.
    - rewrite length_map. cbn [length] in Hlen. unfold maxHistoryLength in Hlen.
      replace (length rest) with 10 by lia. reflexivity. }
  rewrite Hfirst in Hlast. apply Forall_cons in Hsys as [Hs _].
  destruct (role first); done.
Qed.

Lemma long_conversation_begins_with_an_answer_witness :
  let payloads := replicate 6 Fixtures.hello in
  let this := newChatbot Fixtures.console (Fixtures.saying "ok") None in
  let h := historyOf (run payloads this) (userId Fixtures.hello) in
  let log := arrivals payloads this (userId Fixtures.hello) in
  length log = 2 * length payloads
  /\ h = drop (2 * length payloads - (maxHistoryLength + 1)) log
  /\ exists first, head h = Some first /\ role first = assistant.
Proof.
  intros payloads this.
  apply (long_conversation_begins_with_an_answer Fixtures.console
           (Fixtures.saying "ok") None (userId Fixtures.hello) payloads).
  - repeat constructor.
  - reflexivity.
  - cbn. lia.
Defined.
